(** * Lele's Boutique API: a shallow embedding of [main.py] and [schemas.py]

    The development follows the two source files.  Python dictionaries
    are finite maps from strings to values, [os.environ] is a finite map
    from strings to strings, and the handlers run in a small state and
    error monad over a world that holds the document store and the log
    of the calls made to the mail libraries.

    Conventions of the embedding:
    - a Python [str] is the Rocq [string] of its UTF-8 encoding, so a
      character takes one to four elements; [characters] counts them and
      [str_slice_to] cuts between them;
    - a Python [int] is a [Z]; the sample prices are integers in the
      source, and no float arithmetic is performed anywhere;
    - a raised exception is a value of [exn], and [str(e)] is [str_exn];
    - what the libraries do behind a call (SMTP transport, header
      checks, the e-mail syntax check of [EmailStr], the database driver)
      is a parameter of the model, never a fixed choice; so is [int] on
      the texts for which it is not computed. *)

From Stdlib Require Import ZArith String Ascii List Lia.
From stdpp Require Import base option list gmap strings pretty.

#[local] Set Warnings "-register-all".
Local Open Scope string_scope.
Local Open Scope list_scope.
Local Open Scope Z_scope.

(** ** Python values and the built-ins the handlers use *)

Module Py.

(** The values that occur in documents and JSON bodies. *)
Inductive value :=
| VNone
| VBool (b : bool)
| VInt (n : Z)
| VStr (s : string)
| VObjectId (oid : string)
| VList (items : list value).

(** A [dict] with string keys. *)
Abbreviation doc := (gmap string value).

(** Exceptions, by class, each with its message. *)
Inductive exn :=
| ValueError (msg : string)
| Exception (msg : string)
| LibraryError (cls : string) (msg : string).

(** [str(e)] *)
Definition str_exn (e : exn) : string :=
  match e with
  | ValueError msg => msg
  | Exception msg => msg
  | LibraryError _ msg => msg
  end.

(** [len(s)] as an integer *)
Definition len {A} (l : list A) : Z := Z.of_nat (length l).

(** [l[:k]]: a negative bound counts from the end. *)
Definition slice_to {A} (k : Z) (l : list A) : list A :=
  if 0 <=? k then take (Z.to_nat k) l
  else take (Z.to_nat (len l + k)) l.

(** The bytes [10xxxxxx] of UTF-8, which continue the character begun
    before them. *)
Definition is_continuation (c : ascii) : bool :=
  let n := nat_of_ascii c in
  ((128 <=? n)%nat && (n <? 192)%nat).

(** [len(s)] on a string: the number of characters, each begun by a
    byte that is not a continuation. *)
Fixpoint characters (s : string) : nat :=
  match s with
  | EmptyString => 0%nat
  | String c r => if is_continuation c then characters r else S (characters r)
  end.

(** The text starts a character: it is empty or its first byte is not
    a continuation. *)
Definition on_boundary (s : string) : bool :=
  match s with
  | EmptyString => true
  | String c _ => negb (is_continuation c)
  end.

(** [s[:k]] on strings, for the non-negative bounds the source uses: the
    first [k] characters, each with all of its bytes. *)
Fixpoint str_slice_to (k : nat) (s : string) : string :=
  match s with
  | EmptyString => EmptyString
  | String c r =>
      if is_continuation c then String c (str_slice_to k r)
      else
        match k with
        | O => EmptyString
        | S k' => String c (str_slice_to k' r)
        end
  end.

(** [x or d] where [x : Optional[int]]: [None] and [0] are falsy. *)
Definition int_or (x : option Z) (d : Z) : Z :=
  match x with
  | Some n => if n =? 0 then d else n
  | None => d
  end.

(** Truth value of an [Optional[str]]: [None] and the empty string are
    falsy. *)
Definition truthy (x : option string) : bool :=
  match x with
  | Some (String _ _) => true
  | _ => false
  end.

(** [x or y] on [Optional[str]] *)
Definition opt_or (x y : option string) : option string :=
  if truthy x then x else y.

(** [x or d] where the right operand is a string literal *)
Definition str_or (x : option string) (d : string) : string :=
  match x with
  | Some (String c r) => String c r
  | _ => d
  end.

(** The string held by an [Optional[str]] known to be truthy. *)
Definition the (x : option string) : string := default EmptyString x.

(** *** [int(s)] on a string, base 10

    The conversion is computed for plain texts: at most 198 characters,
    all of them printable ASCII, none a single quote or a backslash.
    There the blanks around the literal are dropped, one sign is
    allowed, the digits may be separated by single underscores, and the
    message of the [ValueError] quotes the text as it is.  What [int]
    does on any other text (other white space, digits outside ASCII,
    the limit on the number of digits, the escapes and the cut of the
    quoted text in the message) is left to [int_other], a parameter. *)
Definition is_space (c : ascii) : bool :=
  let n := nat_of_ascii c in
  ((9 <=? n)%nat && (n <=? 13)%nat) || (n =? 32)%nat.

Definition is_plain_char (c : ascii) : bool :=
  let n := nat_of_ascii c in
  (32 <=? n)%nat && (n <=? 126)%nat && negb (n =? 39)%nat && negb (n =? 92)%nat.

Fixpoint all_plain (s : string) : bool :=
  match s with
  | EmptyString => true
  | String c r => is_plain_char c && all_plain r
  end.

Definition plain (s : string) : bool :=
  (String.length s <=? 198)%nat && all_plain s.

Fixpoint lstrip (s : string) : string :=
  match s with
  | String c r => if is_space c then lstrip r else s
  | EmptyString => EmptyString
  end.

Fixpoint rstrip (s : string) : string :=
  match s with
  | EmptyString => EmptyString
  | String c r =>
      match rstrip r with
      | EmptyString => if is_space c then EmptyString else String c EmptyString
      | r' => String c r'
      end
  end.

Definition digit_val (c : ascii) : option Z :=
  let n := nat_of_ascii c in
  if ((48 <=? n)%nat && (n <=? 57)%nat) then Some (Z.of_nat n - 48) else None.

(** [after_digit] tells whether the previous character was a digit: an
    underscore is accepted only there, and the literal must not end on
    one. *)
Fixpoint digits (acc : Z) (after_digit : bool) (s : string) : option Z :=
  match s with
  | EmptyString => if after_digit then Some acc else None
  | String c r =>
      match digit_val c with
      | Some d => digits (10 * acc + d) true r
      | None =>
          if Ascii.eqb c "_"%char && after_digit then digits acc false r else None
      end
  end.

Definition signed_digits (s : string) : option Z :=
  match s with
  | String "-"%char r => Z.opp <$> digits 0 false r
  | String "+"%char r => digits 0 false r
  | _ => digits 0 false s
  end.

(** [repr(s)] of a plain text *)
Definition repr (s : string) : string := "'" +:+ s +:+ "'".

Definition int (int_other : string -> exn + Z) (s : string) : exn + Z :=
  if plain s then
    match signed_digits (rstrip (lstrip s)) with
    | Some n => inr n
    | None => inl (ValueError ("invalid literal for int() with base 10: " +:+ repr s))
    end
  else int_other s.

(** [os.getenv(k)] and [os.getenv(k, d)] *)
Definition getenv (environ : gmap string string) (k : string) : option string :=
  environ !! k.

Definition getenv_default (environ : gmap string string) (k d : string) : string :=
  default d (environ !! k).

End Py.
Import Py.

(** ** State and exceptions

    A computation reads and updates a state [S] and either returns a
    value or raises an error of type [E]. *)

Module Eff.

Definition M (S E A : Type) : Type := S -> (E + A) * S.

Definition ret {S E A} (a : A) : M S E A := fun s => (inr a, s).

Definition raise {S E A} (e : E) : M S E A := fun s => (inl e, s).

Definition bind {S E A B} (m : M S E A) (k : A -> M S E B) : M S E B :=
  fun s =>
    match m s with
    | (inr a, s') => k a s'
    | (inl e, s') => (inl e, s')
    end.

(** [try: m  except Exception as e: h e]; the state reached when the
    error was raised is the one the handler starts from. *)
Definition try_except {S E E' A} (m : M S E A) (h : E -> M S E' A) : M S E' A :=
  fun s =>
    match m s with
    | (inr a, s') => (inr a, s')
    | (inl e, s') => h e s'
    end.

(** A result computed outside the state. *)
Definition lift {S E A} (r : E + A) : M S E A := fun s => (r, s).

End Eff.
Import Eff.

Notation "x <- m ;; k" := (bind m (fun x => k))
  (at level 100, m at next level, right associativity).
Notation "m ;; k" := (bind m (fun _ => k))
  (at level 100, right associativity).

(** ** The world of a request *)

Module Runtime.

(** [email.message.EmailMessage]: the headers in the order they were
    set, and the body. *)
Record EmailMessage := {
  headers : list (string * string);
  content : option string
}.

(** The calls the program makes into [email.message] and [smtplib]. *)
Inductive call :=
| SetHeader (name value : string)
| SetContent (body : string)
| SMTP_connect (host : string) (port : Z)
| SMTP_starttls
| SMTP_login (user password : string)
| SMTP_send_message (msg : EmailMessage)
| SMTP_quit.

(** Modelled from the spec: the document store behind [database.py],
    which is not among the sources.  The store is either unreachable,
    with the message its errors carry, or holds for each collection name
    the records inserted so far; [minted] counts the identifiers it has
    assigned. *)
Record Store := {
  outage : option string;
  collections : gmap string (list doc);
  minted : N
}.

(** Modelled from the spec: a storage-assigned identifier, a text that
    is never empty. *)
Record Identifier := {
  id_head : ascii;
  id_tail : string
}.

Definition id_text (i : Identifier) : string := String (id_head i) (id_tail i).

(** The [db] handle of [database.py] as [main.py] uses it: only
    [list_collection_names()] is called on it. *)
Record Database := {
  list_collection_names : exn + list string
}.

Record World := {
  store : Store;
  calls : list call
}.

Section Calls.

(** What a library call does: [None] when it succeeds, the exception it
    raises otherwise. *)
Variable fault : call -> option exn.

Definition invoke (c : call) : M World exn unit :=
  fun w =>
    let w' := {| store := store w; calls := calls w ++ [c] |} in
    match fault c with
    | Some e => (inl e, w')
    | None => (inr tt, w')
    end.

(** [msg[name] = value] *)
Definition set_header (msg : EmailMessage) (name value : string) : M World exn EmailMessage :=
  invoke (SetHeader name value) ;;
  ret {| headers := headers msg ++ [(name, value)]; content := content msg |}.

(** [msg.set_content(body)] *)
Definition set_content (msg : EmailMessage) (body : string) : M World exn EmailMessage :=
  invoke (SetContent body) ;;
  ret {| headers := headers msg; content := Some body |}.

(** [with smtplib.SMTP(host, port) as server: body]: when the
    constructor raises, nothing else happens; otherwise the session is
    quit on the way out, whether [body] raised or not, and an error
    raised while quitting is the one that propagates. *)
Definition with_SMTP {A} (host : string) (port : Z) (body : M World exn A) : M World exn A :=
  invoke (SMTP_connect host port) ;;
  fun w =>
    let (r, w1) := body w in
    match invoke SMTP_quit w1 with
    | (inl e, w2) => (inl e, w2)
    | (inr _, w2) => (r, w2)
    end.

End Calls.

Section Persistence.

(** The [n]-th identifier of the store. *)
Variable object_id : N -> Identifier.

(** Modelled from the spec: [create_document] of [database.py], not
    among the sources.  It inserts the record into the named collection
    and returns the newly assigned identifier, which the stored record
    carries under ["_id"]; it fails when no backing store is reachable. *)
Definition create_document (collection_name : string) (data : doc) : M World exn string :=
  fun w =>
    let st := store w in
    match outage st with
    | Some msg => (inl (Exception msg), w)
    | None =>
        let i := id_text (object_id (minted st)) in
        let record := <["_id" := VObjectId i]> data in
        let old := default [] (collections st !! collection_name) in
        (inr i,
         {| store := {| outage := None;
                        collections := <[collection_name := old ++ [record]]> (collections st);
                        minted := N.succ (minted st) |};
            calls := calls w |})
    end.

End Persistence.

End Runtime.
Import Runtime.

(** ** [schemas.py] *)

Module Schemas.

Record Lead := {
  lead_name : string;
  lead_email : string;
  lead_phone : option string;
  lead_message : option string;
  lead_source : option string
}.

Record Booking := {
  booking_name : string;
  booking_email : string;
  booking_phone : option string;
  booking_service : string;
  booking_date : string;
  booking_notes : option string
}.

(** One entry of a validation error: the field and what is wrong
    with it. *)
Inductive field_error :=
| Missing (field : string)
| StringType (field : string)
| InvalidEmail (field : string).

Definition error_field (e : field_error) : string :=
  match e with
  | Missing f => f
  | StringType f => f
  | InvalidEmail f => f
  end.

Definition errors_of {A} (r : list field_error + A) : list field_error :=
  match r with
  | inl es => es
  | inr _ => []
  end.

Definition opt_value (x : option string) : value :=
  match x with
  | Some s => VStr s
  | None => VNone
  end.

(** The record as a dictionary, every field present. *)
Definition Lead_dict (p : Lead) : doc :=
  {[ "name" := VStr (lead_name p);
     "email" := VStr (lead_email p);
     "phone" := opt_value (lead_phone p);
     "message" := opt_value (lead_message p);
     "source" := opt_value (lead_source p) ]}.

Definition Booking_dict (p : Booking) : doc :=
  {[ "name" := VStr (booking_name p);
     "email" := VStr (booking_email p);
     "phone" := opt_value (booking_phone p);
     "service" := VStr (booking_service p);
     "date" := VStr (booking_date p);
     "notes" := opt_value (booking_notes p) ]}.

(** [name: str = Field(...)] *)
Definition required_str (body : doc) (f : string) : list field_error + string :=
  match body !! f with
  | None => inl [Missing f]
  | Some (VStr s) => inr s
  | Some _ => inl [StringType f]
  end.

(** [name: Optional[str] = Field(dflt)]: the default is used only when
    the field is absent; an explicit null stays [None]. *)
Definition optional_str (body : doc) (f : string) (dflt : option string)
  : list field_error + option string :=
  match body !! f with
  | None => inr dflt
  | Some VNone => inr None
  | Some (VStr s) => inr (Some s)
  | Some _ => inl [StringType f]
  end.

Section Validation.

(** The syntax check behind [EmailStr]: the address as the model keeps
    it, or [None] when the text is not a valid address. *)
Variable validate_email : string -> option string.

(** [email: EmailStr], a required field *)
Definition email_str (body : doc) (f : string) : list field_error + string :=
  match body !! f with
  | None => inl [Missing f]
  | Some (VStr s) =>
      match validate_email s with
      | Some s' => inr s'
      | None => inl [InvalidEmail f]
      end
  | Some _ => inl [StringType f]
  end.

(** Validation of a JSON object against [Lead]: the record, or the
    errors of every field that failed.  Fields the model does not
    declare are ignored. *)
Definition Lead_validate (body : doc) : list field_error + Lead :=
  match required_str body "name", email_str body "email",
        optional_str body "phone" None, optional_str body "message" None,
        optional_str body "source" (Some "website") with
  | inr n, inr e, inr p, inr m, inr s =>
      inr {| lead_name := n; lead_email := e; lead_phone := p;
             lead_message := m; lead_source := s |}
  | rn, re, rp, rm, rs =>
      inl (errors_of rn ++ errors_of re ++ errors_of rp ++ errors_of rm ++ errors_of rs)
  end.

Definition Booking_validate (body : doc) : list field_error + Booking :=
  match required_str body "name", email_str body "email",
        optional_str body "phone" None, required_str body "service",
        required_str body "date", optional_str body "notes" None with
  | inr n, inr e, inr p, inr s, inr d, inr o =>
      inr {| booking_name := n; booking_email := e; booking_phone := p;
             booking_service := s; booking_date := d; booking_notes := o |}
  | rn, re, rp, rs, rd, ro =>
      inl (errors_of rn ++ errors_of re ++ errors_of rp ++ errors_of rs
           ++ errors_of rd ++ errors_of ro)
  end.

End Validation.

End Schemas.
Import Schemas.

(** ** [main.py] *)

Module Main.

Definition nl : string := String (ascii_of_nat 10) EmptyString.

(** [raise HTTPException(status_code=..., detail=...)] *)
Record HTTPException := {
  status_code : Z;
  detail : string
}.

(** What the framework sends back. *)
Inductive http_body :=
| JSON (d : doc)
| Detail (msg : string)
| ValidationErrors (errors : list field_error).

Record http_response := {
  status : Z;
  body : http_body
}.

Definition falsy {A} (l : list A) : bool :=
  match l with
  | [] => true
  | _ => false
  end.

(** [d.pop("_id", None)] *)
Definition pop_id (d : doc) : doc := delete "_id" d.

(** The sample lists of the four content endpoints. *)
Definition services_sample : list doc :=
  [ {[ "title" := VStr "Signature Makeup";
       "description" := VStr "Flawless, camera-ready finish.";
       "price_from" := VInt 180; "duration_min" := VInt 90 ]};
    {[ "title" := VStr "Haute Couture Styling";
       "description" := VStr "Personalized wardrobe curation.";
       "price_from" := VInt 350; "duration_min" := VInt 120 ]};
    {[ "title" := VStr "Brow Sculpt & Tint";
       "description" := VStr "Perfectly framed elegance.";
       "price_from" := VInt 60; "duration_min" := VInt 30 ]} ].

Definition products_sample : list doc :=
  [ {[ "title" := VStr "Velvet Matte Lip Color";
       "description" := VStr "Petal-soft finish.";
       "price" := VInt 48;
       "image" := VStr "https://images.unsplash.com/photo-1585238342028-4bbc0a3d88a5?w=800&q=60";
       "tag" := VStr "New" ]};
    {[ "title" := VStr "Silk Glow Serum";
       "description" := VStr "Radiant complexion.";
       "price" := VInt 82;
       "image" := VStr "https://images.unsplash.com/photo-1615485737656-371b3f21a6f1?w=800&q=60" ]};
    {[ "title" := VStr "Noir Parfum";
       "description" := VStr "Smoked velvet, white florals.";
       "price" := VInt 120;
       "image" := VStr "https://images.unsplash.com/photo-1594035910387-fea47794261f?w=800&q=60";
       "tag" := VStr "Bestseller" ]} ].

Definition testimonials_sample : list doc :=
  [ {[ "name" := VStr "Amara L.";
       "quote" := VStr "An experience, not a service. I felt exquisite.";
       "avatar" := VStr "https://images.unsplash.com/photo-1554151228-14d9def656e4?w=200&q=60" ]};
    {[ "name" := VStr "Celeste R.";
       "quote" := VStr "Every detail considered. Effortlessly elegant.";
       "avatar" := VStr "https://images.unsplash.com/photo-1544005313-94ddf0286df2?w=200&q=60" ]} ].

Definition posts_sample : list doc :=
  [ {[ "title" := VStr "Autumn Atelier";
       "excerpt" := VStr "Tonal layering in cashmere and silk.";
       "image" := VStr "https://images.unsplash.com/photo-1509631179647-0177331693ae?w=1200&q=60" ]};
    {[ "title" := VStr "Gilded Evenings";
       "excerpt" := VStr "A study in light and shadow.";
       "image" := VStr "https://images.unsplash.com/photo-1483985988355-763728e1932f?w=1200&q=60" ]} ].

Section Handlers.

(** [os.environ] *)
Variable environ : gmap string string.

(** The libraries behind the mail calls. *)
Variable fault : call -> option exn.

(** [int] on the texts for which it is not computed. *)
Variable int_other : string -> exn + Z.

(** The identifiers of the store. *)
Variable object_id : N -> Identifier.

(** [get_documents] of [database.py], which is not among the sources:
    the query of a collection with a filter and an optional limit. *)
Variable get_documents : string -> doc -> option Z -> M World exn (list doc).

(** The [db] handle imported from [database.py]; [None] when it was not
    initialised. *)
Variable db : option Database.

Definition send_email (subject body to_email : string) : M World exn bool :=
  let host := getenv environ "SMTP_HOST" in
  port <- lift (int int_other (getenv_default environ "SMTP_PORT" "587")) ;;
  let user := getenv environ "SMTP_USER" in
  let password := getenv environ "SMTP_PASS" in
  let sender := opt_or (getenv environ "EMAIL_FROM") user in
  if negb (truthy host && truthy user && truthy password && truthy sender
           && truthy (Some to_email))
  then ret false
  else
    let msg := {| headers := []; content := None |} in
    msg <- set_header fault msg "Subject" subject ;;
    msg <- set_header fault msg "From" (the sender) ;;
    msg <- set_header fault msg "To" to_email ;;
    msg <- set_content fault msg body ;;
    with_SMTP fault (the host) port
      (invoke fault SMTP_starttls ;;
       invoke fault (SMTP_login (the user) (the password)) ;;
       invoke fault (SMTP_send_message msg)) ;;
    ret true.

Definition root : doc :=
  {[ "name" := VStr "Lele's Boutique API"; "status" := VStr "ok" ]}.

(** [response[k] = v] on the local dictionary of [test_database] *)
Definition setitem (k : string) (v : value) : M doc exn unit :=
  fun response => (inr tt, <[k := v]> response).

Definition test_database : exn + doc :=
  let response : doc :=
    {[ "backend" := VStr "✅ Running";
       "database" := VStr "❌ Not Available";
       "database_url" :=
         VStr (if truthy (getenv environ "DATABASE_URL") then "✅ Set" else "❌ Not Set");
       "database_name" :=
         VStr (if truthy (getenv environ "DATABASE_NAME") then "✅ Set" else "❌ Not Set");
       "connection_status" := VStr "Not Connected";
       "collections" := VList [] ]} in
  let run :=
    try_except
      (match db with
       | Some handle =>
           setitem "database" (VStr "✅ Connected") ;;
           setitem "connection_status" (VStr "Connected") ;;
           try_except
             (collections <- lift (list_collection_names handle) ;;
              setitem "collections" (VList (VStr <$> slice_to 10 collections)) ;;
              setitem "database" (VStr "✅ Connected & Working"))
             (fun e =>
                setitem "database"
                  (VStr ("⚠️ Connected but Error: " +:+ str_slice_to 120 (str_exn e))))
       | None => setitem "database" (VStr "⚠️ Available but not initialized")
       end)
      (fun e =>
         setitem "database" (VStr ("❌ Error: " +:+ str_slice_to 120 (str_exn e)))) in
  match run response with
  | (inr _, response') => inr response'
  | (inl e, _) => inl e
  end.

Definition list_services (limit : option Z) : M World exn (list doc) :=
  docs <- get_documents "service" ∅ limit ;;
  if falsy docs then
    let sample := services_sample in
    ret (slice_to (int_or limit (len sample)) sample)
  else ret (pop_id <$> docs).

Definition list_products (limit : option Z) : M World exn (list doc) :=
  docs <- get_documents "product" ∅ limit ;;
  if falsy docs then
    let sample := products_sample in
    ret (slice_to (int_or limit (len sample)) sample)
  else ret (pop_id <$> docs).

Definition list_testimonials (limit : option Z) : M World exn (list doc) :=
  docs <- get_documents "testimonial" ∅ limit ;;
  if falsy docs then
    let sample := testimonials_sample in
    ret (slice_to (int_or limit (len sample)) sample)
  else ret (pop_id <$> docs).

Definition list_posts (limit : option Z) : M World exn (list doc) :=
  docs <- get_documents "post" ∅ limit ;;
  if falsy docs then
    let sample := posts_sample in
    ret (slice_to (int_or limit (len sample)) sample)
  else ret (pop_id <$> docs).

Definition lead_mail_body (payload : Lead) : string :=
  "New website lead for Lele's Boutique" +:+ nl +:+ nl +:+
  "Name: " +:+ lead_name payload +:+ nl +:+
  "Email: " +:+ lead_email payload +:+ nl +:+
  "Phone: " +:+ str_or (lead_phone payload) "-" +:+ nl +:+ nl +:+
  "Message:" +:+ nl +:+ str_or (lead_message payload) "-" +:+ nl.

(** The statements under [try:] in [create_lead]. *)
Definition create_lead_try (payload : Lead) : M World exn doc :=
  lead_id <- create_document object_id "lead" (Lead_dict payload) ;;
  let owner_email := getenv environ "EMAIL_TO" in
  let body := lead_mail_body payload in
  send_email "New Lead – Lele's Boutique" body (str_or owner_email EmptyString) ;;
  ret {[ "status" := VStr "ok"; "id" := VStr lead_id ]}.

Definition create_lead (payload : Lead) : M World HTTPException doc :=
  try_except (create_lead_try payload)
    (fun e => raise {| status_code := 500; detail := str_exn e |}).

Definition booking_mail_body (payload : Booking) : string :=
  "New booking request for Lele's Boutique" +:+ nl +:+ nl +:+
  "Name: " +:+ booking_name payload +:+ nl +:+
  "Email: " +:+ booking_email payload +:+ nl +:+
  "Phone: " +:+ str_or (booking_phone payload) "-" +:+ nl +:+
  "Service: " +:+ booking_service payload +:+ nl +:+
  "Date: " +:+ booking_date payload +:+ nl +:+ nl +:+
  "Notes:" +:+ nl +:+ str_or (booking_notes payload) "-" +:+ nl.

(** The statements under [try:] in [create_booking]. *)
Definition create_booking_try (payload : Booking) : M World exn doc :=
  booking_id <- create_document object_id "booking" (Booking_dict payload) ;;
  let owner_email := getenv environ "EMAIL_TO" in
  let body := booking_mail_body payload in
  send_email "New Booking – Lele's Boutique" body (str_or owner_email EmptyString) ;;
  ret {[ "status" := VStr "ok"; "id" := VStr booking_id ]}.

Definition create_booking (payload : Booking) : M World HTTPException doc :=
  try_except (create_booking_try payload)
    (fun e => raise {| status_code := 500; detail := str_exn e |}).

Definition config : doc :=
  {[ "instagram_user" := VStr (getenv_default environ "INSTAGRAM_USER" "lelesboutique");
     "ga_id" := VStr (getenv_default environ "GA_ID" EmptyString) ]}.

End Handlers.

End Main.
Import Main.

(** ** The framework around the handlers

    Routing of the four content paths, and what the framework does with
    a [POST] whose parameter is a model: the JSON object is validated
    first, a failure is answered with 422 and the handler is not called;
    otherwise the handler runs, its dictionary is the body of a 200, and
    an [HTTPException] it raises becomes a response with that status and
    detail.  The serialisation of a returned list through
    [response_model] is not modelled: the list a content handler returns
    stands for the response. *)

Module App.

Inductive content_type := Services | Products | Testimonials | Posts.

Definition collection_of (t : content_type) : string :=
  match t with
  | Services => "service"
  | Products => "product"
  | Testimonials => "testimonial"
  | Posts => "post"
  end.

Definition sample_of (t : content_type) : list doc :=
  match t with
  | Services => services_sample
  | Products => products_sample
  | Testimonials => testimonials_sample
  | Posts => posts_sample
  end.

Inductive write_route := PostLead | PostBook.

Section Routes.

Variable environ : gmap string string.
Variable fault : call -> option exn.
Variable int_other : string -> exn + Z.
Variable object_id : N -> Identifier.
Variable get_documents : string -> doc -> option Z -> M World exn (list doc).
Variable validate_email : string -> option string.

(** [GET /services], [/products], [/testimonials], [/posts] *)
Definition GET_content (t : content_type) (limit : option Z) : M World exn (list doc) :=
  match t with
  | Services => list_services get_documents limit
  | Products => list_products get_documents limit
  | Testimonials => list_testimonials get_documents limit
  | Posts => list_posts get_documents limit
  end.

Definition respond (r : (HTTPException + doc) * World) : http_response * World :=
  match r with
  | (inr d, w) => ({| status := 200; body := JSON d |}, w)
  | (inl exc, w) => ({| status := status_code exc; body := Detail (detail exc) |}, w)
  end.

(** [POST /lead] *)
Definition POST_lead (json : doc) (w : World) : http_response * World :=
  match Lead_validate validate_email json with
  | inl errs => ({| status := 422; body := ValidationErrors errs |}, w)
  | inr payload => respond (create_lead environ fault int_other object_id payload w)
  end.

(** [POST /book] *)
Definition POST_book (json : doc) (w : World) : http_response * World :=
  match Booking_validate validate_email json with
  | inl errs => ({| status := 422; body := ValidationErrors errs |}, w)
  | inr payload => respond (create_booking environ fault int_other object_id payload w)
  end.

End Routes.

End App.
Import App.

(** ** Predicates used in the statements *)

(** A computation that returns [True] or raises, whatever the world. *)
Definition never_false (m : M World exn bool) : Prop :=
  forall w, fst (m w) <> inr false.

(** The limit asks for at least the whole of a list: it is absent, or
    not below the length. *)
Definition covers {A} (limit : option Z) (l : list A) : Prop :=
  match limit with
  | None => True
  | Some n => len l <= n
  end.

(** ** Concrete settings used to exercise the model *)

Module Fixtures.

(** A store that is reachable and holds nothing. *)
Definition empty_world : World :=
  {| store := {| outage := None; collections := ∅; minted := 0 |}; calls := [] |}.

(** A store that cannot be reached and reports [msg]. *)
Definition down_world (msg : string) : World :=
  {| store := {| outage := Some msg; collections := ∅; minted := 0 |}; calls := [] |}.

(** Every query finds nothing. *)
Definition empty_storage : string -> doc -> option Z -> M World exn (list doc) :=
  fun _ _ _ => ret [].

(** Every query of a collection finds the same two records. *)
Definition two_records : list doc :=
  [ {[ "_id" := VObjectId "a1"; "title" := VStr "Rose Tint" ]};
    {[ "title" := VStr "Plain" ]} ].

Definition seeded_storage : string -> doc -> option Z -> M World exn (list doc) :=
  fun _ _ _ => ret two_records.

(** Libraries that never fail. *)
Definition no_fault : call -> option exn := fun _ => None.

(** Identifiers [oid-0], [oid-1], ... *)
Definition numbered_id (n : N) : Identifier :=
  {| id_head := "o"%char; id_tail := "id-" +:+ pretty n |}.

(** An [int] that refuses every text it is asked about beyond the plain
    ones. *)
Definition refusing (s : string) : exn + Z :=
  inl (ValueError "invalid literal for int() with base 10").

Fixpoint has_at (s : string) : bool :=
  match s with
  | EmptyString => false
  | String c r => Ascii.eqb c "@"%char || has_at r
  end.

(** A crude address check: the text must contain an at sign. *)
Definition at_sign_check (s : string) : option string :=
  if has_at s then Some s else None.

Definition no_env : gmap string string := ∅.

(** Only [SMTP_PORT] is set, to the empty string. *)
Definition blank_port_env : gmap string string := {[ "SMTP_PORT" := EmptyString ]}.

(** A complete SMTP configuration but for [EMAIL_FROM]. *)
Definition smtp_env : gmap string string :=
  {[ "SMTP_HOST" := "mail.example.com"; "SMTP_USER" := "lele";
     "SMTP_PASS" := "secret"; "EMAIL_TO" := "owner@example.com" ]}.

Definition amara : doc := {[ "name" := VStr "Amara"; "email" := VStr "a@x.com" ]}.

Definition bad_email : doc := {[ "name" := VStr "Amara"; "email" := VStr "not-an-address" ]}.

(** A message of 121 characters. *)
Definition long_message : string := string_of_list_ascii (repeat "x"%char 121).

Definition a_lead : Lead :=
  {| lead_name := "Amara"; lead_email := "a@x.com"; lead_phone := None;
     lead_message := None; lead_source := Some "website" |}.

Definition failing_names : Database :=
  {| list_collection_names := inl (LibraryError "ServerSelectionTimeoutError" long_message) |}.

End Fixtures.
Import Fixtures.

(** ** The response models of the content endpoints ([schemas.py])

    A returned dictionary conforms to a model when every declared field
    holds a value of the declared type as it is, without conversion, and
    within the declared bound.  Numbers are the integers of [value]; a
    [published_at] can therefore only be absent or [None]. *)

Module Models.

(** [f: str] *)
Definition is_str (d : doc) (f : string) : bool :=
  match d !! f with
  | Some (VStr _) => true
  | _ => false
  end.

(** [f: Optional[str] = None] *)
Definition is_opt_str (d : doc) (f : string) : bool :=
  match d !! f with
  | None | Some VNone | Some (VStr _) => true
  | _ => false
  end.

(** [f: float = Field(..., ge=0)] *)
Definition is_nonneg (d : doc) (f : string) : bool :=
  match d !! f with
  | Some (VInt n) => 0 <=? n
  | _ => false
  end.

(** [f: Optional[float] = Field(None, ge=0)], and the same for [int] *)
Definition is_opt_nonneg (d : doc) (f : string) : bool :=
  match d !! f with
  | None | Some VNone => true
  | Some (VInt n) => 0 <=? n
  | _ => false
  end.

(** [f: Optional[datetime] = None] *)
Definition is_opt_absent (d : doc) (f : string) : bool :=
  match d !! f with
  | None | Some VNone => true
  | _ => false
  end.

Definition Service_conforms (d : doc) : bool :=
  is_str d "title" && is_opt_str d "description"
  && is_opt_nonneg d "price_from" && is_opt_nonneg d "duration_min".

Definition Product_conforms (d : doc) : bool :=
  is_str d "title" && is_opt_str d "description" && is_nonneg d "price"
  && is_opt_str d "image" && is_opt_str d "tag".

Definition Testimonial_conforms (d : doc) : bool :=
  is_str d "name" && is_str d "quote" && is_opt_str d "avatar".

Definition Post_conforms (d : doc) : bool :=
  is_str d "title" && is_opt_str d "excerpt" && is_opt_str d "image"
  && is_opt_absent d "published_at".

(** The [response_model] of each content endpoint. *)
Definition conforms (t : content_type) (d : doc) : bool :=
  match t with
  | Services => Service_conforms d
  | Products => Product_conforms d
  | Testimonials => Testimonial_conforms d
  | Posts => Post_conforms d
  end.

End Models.
Import Models.

(** ** Further predicates used in the statements *)

(** Host, user, password and recipient are all set and non-empty. *)
Definition configured (environ : gmap string string) (to_email : string) : bool :=
  truthy (getenv environ "SMTP_HOST") && truthy (getenv environ "SMTP_USER")
  && truthy (getenv environ "SMTP_PASS") && truthy (Some to_email).

(** The calls logged between two worlds. *)
Definition new_calls (w w' : World) : list call :=
  drop (length (calls w)) (calls w').

(** The calls of a complete delivery, in order. *)
Definition delivery (subject body to_email sender host user password : string) (port : Z)
  : list call :=
  [ SetHeader "Subject" subject; SetHeader "From" sender; SetHeader "To" to_email;
    SetContent body; SMTP_connect host port; SMTP_starttls; SMTP_login user password;
    SMTP_send_message
      {| headers := [("Subject", subject); ("From", sender); ("To", to_email)];
         content := Some body |};
    SMTP_quit ].

(** The length of [sample[:limit or len(sample)]] for a sample of [n]
    entries. *)
Definition fallback_length (limit : option Z) (n : Z) : Z :=
  match limit with
  | None => n
  | Some k => if k =? 0 then n else if 0 <? k then Z.min k n else Z.max 0 (n + k)
  end.

(** The names of the fields [Lead] declares. *)
Definition Lead_fields : list string := ["name"; "email"; "phone"; "message"; "source"].

(** The names of the fields [Booking] declares. *)
Definition Booking_fields : list string :=
  ["name"; "email"; "phone"; "service"; "date"; "notes"].

(** ** Further concrete settings *)

Module MoreFixtures.

(** A complete SMTP configuration with a sender address of its own. *)
Definition smtp_from_env : gmap string string :=
  {[ "SMTP_HOST" := "mail.example.com"; "SMTP_USER" := "lele";
     "SMTP_PASS" := "secret"; "EMAIL_FROM" := "shop@example.com";
     "EMAIL_TO" := "owner@example.com" ]}.

(** A booking request without the service. *)
Definition booking_without_service : doc :=
  {[ "name" := VStr "Amara"; "email" := VStr "a@x.com"; "date" := VStr "2025-03-01" ]}.

(** The world once the lead of Amara is stored in the empty store. *)
Definition stored_world : World :=
  snd (create_document numbered_id "lead" (Lead_dict a_lead) empty_world).

(** A complete SMTP configuration but for [EMAIL_FROM], with a port
    that is no number. *)
Definition bad_port_env : gmap string string :=
  {[ "SMTP_HOST" := "mail.example.com"; "SMTP_USER" := "lele";
     "SMTP_PASS" := "secret"; "SMTP_PORT" := "abc" ]}.

End MoreFixtures.
Import MoreFixtures.

(** * Properties *)

(** ** Built-ins *)

Lemma slice_to_positive {A} (n : Z) (l : list A) :
  0 < n -> slice_to n l = take (Z.to_nat n) l.
Proof.
  intros Hn. unfold slice_to.
  destruct (Z.leb_spec 0 n); [reflexivity | lia].
Qed.

Lemma slice_to_len {A} (l : list A) : slice_to (len l) l = l.
Proof.
  unfold slice_to, len.
  destruct (Z.leb_spec 0 (Z.of_nat (length l))); [| lia].
  rewrite Nat2Z.id. apply firstn_all.
Qed.

Lemma int_or_zero (d : Z) : int_or (Some 0) d = int_or None d.
Proof. reflexivity. Qed.

Lemma int_or_positive (n d : Z) : 0 < n -> int_or (Some n) d = n.
Proof.
  intros Hn. unfold int_or.
  destruct (Z.eqb_spec n 0); [lia | reflexivity].
Qed.

Lemma str_slice_to_characters (k : nat) (s : string) :
  characters (str_slice_to k s) = Nat.min k (characters s).
Proof.
  revert k. induction s as [| c s IH]; intros k; simpl.
  - lia.
  - destruct (is_continuation c) eqn:Hc; simpl.
    + rewrite Hc. apply IH.
    + destruct k as [| k]; simpl; [reflexivity |].
      rewrite Hc, IH. reflexivity.
Qed.

Lemma characters_append (a b : string) :
  characters (a +:+ b) = (characters a + characters b)%nat.
Proof.
  induction a as [| c a IH]; [reflexivity |].
  change (String c a +:+ b) with (String c (a +:+ b)). simpl.
  destruct (is_continuation c); lia.
Qed.

Lemma boundary_no_characters (s : string) :
  on_boundary s = true -> characters s = 0%nat -> s = EmptyString.
Proof.
  destruct s as [| c s]; [reflexivity |]. simpl.
  destruct (is_continuation c); [discriminate | discriminate].
Qed.

Lemma append_empty_r (s : string) : s +:+ EmptyString = s.
Proof.
  induction s as [| c s IH]; [reflexivity |].
  change (String c s +:+ EmptyString) with (String c (s +:+ EmptyString)).
  by rewrite IH.
Qed.

Lemma str_slice_to_split (k : nat) (s : string) :
  exists rest, s = str_slice_to k s +:+ rest /\ on_boundary rest = true.
Proof.
  revert k. induction s as [| c s IH]; intros k; simpl.
  - exists EmptyString. split; reflexivity.
  - destruct (is_continuation c) eqn:Hc.
    + destruct (IH k) as (rest & Hs & Hb). exists rest. split; [| exact Hb].
      transitivity (String c (str_slice_to k s +:+ rest)); [f_equal; exact Hs | reflexivity].
    + destruct k as [| k].
      * exists (String c s). split; [reflexivity |]. simpl. by rewrite Hc.
      * destruct (IH k) as (rest & Hs & Hb). exists rest. split; [| exact Hb].
        transitivity (String c (str_slice_to k s +:+ rest)); [f_equal; exact Hs | reflexivity].
Qed.

(** ** The content endpoints *)

Section ContentProperties.

Variable get_documents : string -> doc -> option Z -> M World exn (list doc).

Lemma GET_content_no_documents (t : content_type) (limit : option Z) (w w' : World) :
  get_documents (collection_of t) ∅ limit w = (inr [], w') ->
  GET_content get_documents t limit w =
    (inr (slice_to (int_or limit (len (sample_of t))) (sample_of t)), w').
Proof.
  intros Hq.
  destruct t; simpl in Hq;
    unfold GET_content, list_services, list_products, list_testimonials,
      list_posts, bind;
    rewrite Hq; reflexivity.
Qed.

Lemma GET_content_documents (t : content_type) (limit : option Z) (w w' : World)
    (docs : list doc) :
  get_documents (collection_of t) ∅ limit w = (inr docs, w') ->
  docs <> [] ->
  GET_content get_documents t limit w = (inr (pop_id <$> docs), w').
Proof.
  intros Hq Hne.
  destruct docs as [| d docs]; [congruence |].
  destruct t; simpl in Hq;
    unfold GET_content, list_services, list_products, list_testimonials,
      list_posts, bind;
    rewrite Hq; reflexivity.
Qed.

(** C1.  When the query of the backing collection returns
    nothing, each content endpoint answers with its fixed sample list if
    no limit is given or the limit is at least the sample size, and with
    exactly the first [n] sample entries if a limit [n] with
    [0 < n < sample size] is given; for [/products] with limit 1 that is
    exactly one product, the first sample, titled
    "Velvet Matte Lip Color". *)
Theorem empty_collection_gives_sample
    (t : content_type) (limit : option Z) (w w' : World) :
  get_documents (collection_of t) ∅ limit w = (inr [], w') ->
  (covers limit (sample_of t) ->
     GET_content get_documents t limit w = (inr (sample_of t), w'))
  /\ (forall n, limit = Some n -> 0 < n < len (sample_of t) ->
        GET_content get_documents t limit w
          = (inr (take (Z.to_nat n) (sample_of t)), w')
        /\ len (take (Z.to_nat n) (sample_of t)) = n)
  /\ (t = Products -> limit = Some 1 ->
        exists d, GET_content get_documents t limit w = (inr [d], w')
                  /\ head products_sample = Some d
                  /\ d !! "title" = Some (VStr "Velvet Matte Lip Color")).
Proof.
  intros Hq. pose proof (GET_content_no_documents t limit w w' Hq) as Hget.
  split; [| split].
  - destruct limit as [n |]; simpl; intros Hn; rewrite Hget.
    + assert (0 < len (sample_of t)) by (destruct t; reflexivity).
      rewrite int_or_positive, slice_to_positive by lia.
      f_equal. f_equal. apply take_ge. unfold len in *. lia.
    + simpl int_or. by rewrite slice_to_len.
  - intros n -> Hn. rewrite Hget.
    rewrite int_or_positive, slice_to_positive by lia.
    split; [reflexivity |].
    unfold len in *. rewrite length_take. lia.
  - intros -> ->. rewrite Hget.
    eexists. split; [reflexivity |]. split; [reflexivity |].
    vm_compute. reflexivity.
Qed.

(** C3.  When the query returns a non-empty list of records, the
    response consists of those records with the ["_id"] key removed, so
    no returned record carries the internal identifier. *)
Theorem stored_records_lose_id
    (t : content_type) (limit : option Z) (w w' : World) (docs : list doc) :
  get_documents (collection_of t) ∅ limit w = (inr docs, w') ->
  docs <> [] ->
  exists out,
    GET_content get_documents t limit w = (inr out, w')
    /\ out = pop_id <$> docs
    /\ Forall (fun d : doc => d !! "_id" = None) out.
Proof.
  intros Hq Hne. exists (pop_id <$> docs).
  split; [by apply GET_content_documents |]. split; [reflexivity |].
  apply Forall_fmap, Forall_forall. intros d _. simpl.
  unfold pop_id. apply lookup_delete_eq.
Qed.

(** C9.  With limit 0 and a query that returns nothing, each content
    endpoint answers with its whole, non-empty sample list: the slice
    bound [limit or len(sample)] is the one of a request without
    limit. *)
Theorem zero_limit_gives_full_sample (t : content_type) (w w' : World) :
  get_documents (collection_of t) ∅ (Some 0) w = (inr [], w') ->
  GET_content get_documents t (Some 0) w = (inr (sample_of t), w')
  /\ sample_of t <> []
  /\ int_or (Some 0) (len (sample_of t)) = int_or None (len (sample_of t)).
Proof.
  intros Hq. split; [| split].
  - rewrite (GET_content_no_documents _ _ _ _ Hq).
    rewrite int_or_zero. simpl int_or. by rewrite slice_to_len.
  - destruct t; discriminate.
  - apply int_or_zero.
Qed.

End ContentProperties.

(** ** The notification *)

Lemma truthy_nonempty (s : string) : s <> EmptyString -> truthy (Some s) = true.
Proof. destruct s; [congruence | reflexivity]. Qed.

Lemma never_false_ret : never_false (ret true).
Proof. intros w. simpl. discriminate. Qed.

Lemma never_false_bind {A} (m : M World exn A) (k : A -> M World exn bool) :
  (forall a, never_false (k a)) -> never_false (bind m k).
Proof.
  intros Hk w. unfold bind.
  destruct (m w) as [[e | a] w1]; simpl; [discriminate | apply Hk].
Qed.

Section NotificationProperties.

Variable environ : gmap string string.
Variable fault : call -> option exn.
Variable int_other : string -> exn + Z.

(** The guard of [send_email], once the port has been read: when one of
    host, user, password, sender or recipient is missing or empty, the
    function returns [False] and calls no library. *)
Lemma send_email_not_configured (subject body to_email : string) (port : Z) (w : World) :
  int int_other (getenv_default environ "SMTP_PORT" "587") = inr port ->
  truthy (getenv environ "SMTP_HOST") && truthy (getenv environ "SMTP_USER")
    && truthy (getenv environ "SMTP_PASS")
    && truthy (opt_or (getenv environ "EMAIL_FROM") (getenv environ "SMTP_USER"))
    && truthy (Some to_email) = false ->
  send_email environ fault int_other subject body to_email w = (inr false, w).
Proof.
  intros Hport Hguard. unfold send_email, bind, lift.
  rewrite Hport, Hguard. reflexivity.
Qed.

(** The port is read before the guard: when it does not parse, the
    function raises and calls no library. *)
Lemma send_email_bad_port (subject body to_email : string) (e : exn) (w : World) :
  int int_other (getenv_default environ "SMTP_PORT" "587") = inl e ->
  send_email environ fault int_other subject body to_email w = (inl e, w).
Proof.
  intros Hport. unfold send_email, bind, lift. rewrite Hport. reflexivity.
Qed.

End NotificationProperties.

(** C4, at a configuration that breaks it.  Only [SMTP_PORT] is set, to
    the empty string, so host, user and password are all missing; the
    port is converted before the guard is reached and [send_email]
    raises [ValueError] instead of returning [False].  No library is
    called. *)
Theorem send_email_blank_port_raises (int_other : string -> exn + Z) :
  send_email blank_port_env no_fault int_other "New Lead" "text" "owner@example.com"
    empty_world
  = (inl (ValueError "invalid literal for int() with base 10: ''"), empty_world).
Proof. vm_compute. reflexivity. Qed.

(** ** The diagnostic and configuration endpoints *)

(** C7.  [test_database] always returns its diagnostic object and never
    raises; when listing the collections raises [e], the ["database"]
    entry is the fixed prefix followed by the first 120 characters of
    [str(e)]: a prefix of the message, cut between two characters, of
    120 characters when the message has more and the whole message
    otherwise. *)
Theorem test_database_never_raises (environ : gmap string string) :
  (forall db, exists r, test_database environ db = inr r)
  /\ (forall e, exists r text rest,
        test_database environ (Some {| list_collection_names := inl e |}) = inr r
        /\ r !! "database" = Some (VStr ("⚠️ Connected but Error: " +:+ text))
        /\ str_exn e = text +:+ rest
        /\ on_boundary rest = true
        /\ characters text = Nat.min 120 (characters (str_exn e))
        /\ ((characters (str_exn e) <= 120)%nat -> text = str_exn e)
        /\ r !! "connection_status" = Some (VStr "Connected")).
Proof.
  split.
  - intros [[[e | names]] |];
      cbv [test_database try_except bind setitem lift list_collection_names];
      eexists; reflexivity.
  - intros e.
    destruct (str_slice_to_split 120 (str_exn e)) as (rest & Hsplit & Hb).
    pose proof (str_slice_to_characters 120 (str_exn e)) as Hchars.
    cbv [test_database try_except bind setitem lift list_collection_names].
    eexists _, (str_slice_to 120 (str_exn e)), rest.
    split; [reflexivity |]. split; [apply lookup_insert_eq |].
    split; [exact Hsplit |]. split; [exact Hb |]. split; [exact Hchars |].
    split.
    + intros Hle.
      assert (Hrest : characters rest = 0%nat).
      { pose proof (characters_append (str_slice_to 120 (str_exn e)) rest) as Happ.
        rewrite <- Hsplit in Happ. lia. }
      rewrite (boundary_no_characters rest Hb Hrest) in Hsplit.
      rewrite append_empty_r in Hsplit. symmetry. exact Hsplit.
    + rewrite lookup_insert_ne by discriminate. apply lookup_insert_eq.
Qed.

(** C8.  When neither [INSTAGRAM_USER] nor [GA_ID] is set, [config]
    returns ["lelesboutique"] as [instagram_user] and the empty string as
    [ga_id]. *)
Theorem config_defaults (environ : gmap string string) :
  environ !! "INSTAGRAM_USER" = None ->
  environ !! "GA_ID" = None ->
  config environ
    = {[ "instagram_user" := VStr "lelesboutique"; "ga_id" := VStr EmptyString ]}
  /\ config environ !! "instagram_user" = Some (VStr "lelesboutique")
  /\ config environ !! "ga_id" = Some (VStr EmptyString).
Proof.
  intros Hi Hg. unfold config, getenv_default. rewrite Hi, Hg. simpl default.
  split; [reflexivity |]. split; vm_compute; reflexivity.
Qed.

(** ** The write endpoints *)

Section WriteProperties.

Variable environ : gmap string string.
Variable fault : call -> option exn.
Variable int_other : string -> exn + Z.
Variable object_id : N -> Identifier.
Variable validate_email : string -> option string.

(** An email field that is missing, not a string, or refused by the
    syntax check fails the validation of [Lead], with an error on that
    field. *)
Lemma Lead_validate_bad_email (json : doc) :
  (forall s, json !! "email" = Some (VStr s) -> validate_email s = None) ->
  exists errs,
    Lead_validate validate_email json = inl errs
    /\ exists e, In e errs /\ error_field e = "email".
Proof.
  intros Hbad.
  assert (Hemail : exists e, email_str validate_email json "email" = inl [e]
                             /\ error_field e = "email").
  { unfold email_str.
    destruct (json !! "email") as [[| | | s | |] |] eqn:He; eauto.
    rewrite (Hbad s eq_refl). eauto. }
  destruct Hemail as (e & He & Hf).
  unfold Lead_validate. rewrite He.
  destruct (required_str json "name"), (optional_str json "phone" None),
    (optional_str json "message" None), (optional_str json "source" (Some "website"));
    eexists; (split; [reflexivity |]); exists e; (split; [| exact Hf]);
    simpl; rewrite ?in_app_iff; simpl; tauto.
Qed.

(** C2.  A body whose email field is not a valid address (missing, not
    a string, or refused by the syntax check) is answered with 422 and
    the validation errors, among them one on the email field; the
    handler does not run, so the world, and with it the store, is
    unchanged. *)
Theorem invalid_email_rejected (json : doc) (w : World) :
  (forall s, json !! "email" = Some (VStr s) -> validate_email s = None) ->
  exists errs,
    POST_lead environ fault int_other object_id validate_email json w
      = ({| status := 422; body := ValidationErrors errs |}, w)
    /\ (exists e, In e errs /\ error_field e = "email")
    /\ store (snd (POST_lead environ fault int_other object_id validate_email json w)) = store w.
Proof.
  intros Hbad.
  destruct (Lead_validate_bad_email json Hbad) as (errs & Hv & He).
  exists errs. unfold POST_lead. rewrite Hv. auto.
Qed.

(** C5, as amended.  When a statement under [try] in [create_lead] or
    [create_booking] raises [e], the endpoint answers with status 500 and
    the whole of [str(e)] as detail; the message is not cut. *)
Theorem handler_error_becomes_500 :
  (forall json payload w e w',
     Lead_validate validate_email json = inr payload ->
     create_lead_try environ fault int_other object_id payload w = (inl e, w') ->
     POST_lead environ fault int_other object_id validate_email json w
       = ({| status := 500; body := Detail (str_exn e) |}, w'))
  /\ (forall json payload w e w',
        Booking_validate validate_email json = inr payload ->
        create_booking_try environ fault int_other object_id payload w = (inl e, w') ->
        POST_book environ fault int_other object_id validate_email json w
          = ({| status := 500; body := Detail (str_exn e) |}, w')).
Proof.
  split; intros json payload w e w' Hv Htry.
  - unfold POST_lead, create_lead, try_except. rewrite Hv, Htry. reflexivity.
  - unfold POST_book, create_booking, try_except. rewrite Hv, Htry. reflexivity.
Qed.


End WriteProperties.

(** * The properties on concrete requests *)

(** Against empty storage, [GET /products?limit=1] returns the first
    sample product alone. *)
Lemma empty_collection_gives_sample_witness :
  empty_storage (collection_of Products) ∅ (Some 1) empty_world = (inr [], empty_world)
  /\ GET_content empty_storage Products (Some 1) empty_world
     = (inr (take 1 products_sample), empty_world).
Proof.
  split; [reflexivity |].
  pose proof (empty_collection_gives_sample empty_storage Products (Some 1)
                empty_world empty_world eq_refl) as (_ & Hcut & _).
  destruct (Hcut 1 eq_refl) as [Hget _]; [unfold len; simpl; lia |].
  exact Hget.
Defined.

(** Two stored records, one of them with an identifier: both come back
    without the ["_id"] key. *)
Lemma stored_records_lose_id_witness :
  seeded_storage (collection_of Products) ∅ None empty_world = (inr two_records, empty_world)
  /\ two_records <> []
  /\ exists out,
       GET_content seeded_storage Products None empty_world = (inr out, empty_world)
       /\ out = pop_id <$> two_records
       /\ Forall (fun d : doc => d !! "_id" = None) out.
Proof.
  split; [reflexivity |].
  assert (Hne : two_records <> []) by discriminate.
  split; [exact Hne |].
  exact (stored_records_lose_id seeded_storage Products None empty_world empty_world
           two_records eq_refl Hne).
Defined.

(** [GET /posts?limit=0] against empty storage. *)
Lemma zero_limit_gives_full_sample_witness :
  empty_storage (collection_of Posts) ∅ (Some 0) empty_world = (inr [], empty_world)
  /\ GET_content empty_storage Posts (Some 0) empty_world = (inr posts_sample, empty_world).
Proof.
  split; [reflexivity |].
  exact (proj1 (zero_limit_gives_full_sample empty_storage Posts empty_world empty_world
                  eq_refl)).
Defined.

(** A body whose email has no at sign, checked by [at_sign_check]. *)
Lemma invalid_email_rejected_witness :
  (forall s, bad_email !! "email" = Some (VStr s) -> at_sign_check s = None)
  /\ exists errs,
       POST_lead no_env no_fault refusing numbered_id at_sign_check bad_email empty_world
       = ({| status := 422; body := ValidationErrors errs |}, empty_world).
Proof.
  assert (Hbad : forall s, bad_email !! "email" = Some (VStr s) -> at_sign_check s = None).
  { intros s Hs.
    assert (Hl : bad_email !! "email" = Some (VStr "not-an-address"))
      by (vm_compute; reflexivity).
    rewrite Hl in Hs. injection Hs as <-. reflexivity. }
  split; [exact Hbad |].
  destruct (invalid_email_rejected no_env no_fault refusing numbered_id at_sign_check bad_email
              empty_world Hbad) as (errs & Hr & _).
  exists errs. exact Hr.
Defined.

(** The store is down: the lead request is answered with 500 and the
    store's message. *)
Lemma handler_error_becomes_500_witness :
  Lead_validate at_sign_check amara = inr a_lead
  /\ create_lead_try no_env no_fault refusing numbered_id a_lead (down_world "no database")
     = (inl (Exception "no database"), down_world "no database")
  /\ POST_lead no_env no_fault refusing numbered_id at_sign_check amara (down_world "no database")
     = ({| status := 500; body := Detail "no database" |}, down_world "no database").
Proof.
  assert (Hv : Lead_validate at_sign_check amara = inr a_lead)
    by (vm_compute; reflexivity).
  assert (Htry : create_lead_try no_env no_fault refusing numbered_id a_lead (down_world "no database")
                 = (inl (Exception "no database"), down_world "no database"))
    by (vm_compute; reflexivity).
  split; [exact Hv |]. split; [exact Htry |].
  exact (proj1 (handler_error_becomes_500 no_env no_fault refusing numbered_id at_sign_check)
           amara a_lead (down_world "no database") (Exception "no database")
           (down_world "no database") Hv Htry).
Defined.

(** C5 as stated fails on a message of 121 characters: persistence
    raises it, and the detail of the 500 is the whole message, which no
    cut to fewer characters, the [[:120]] of [test_database] included,
    would give. *)
Lemma lead_error_detail_not_cut :
  create_lead_try no_env no_fault refusing numbered_id a_lead (down_world long_message)
  = (inl (Exception long_message), down_world long_message)
  /\ POST_lead no_env no_fault refusing numbered_id at_sign_check amara (down_world long_message)
     = ({| status := 500; body := Detail long_message |}, down_world long_message)
  /\ String.length long_message = 121%nat
  /\ Detail long_message <> Detail (str_slice_to 120 long_message)
  /\ (forall n, (n < 121)%nat -> Detail long_message <> Detail (str_slice_to n long_message)).
Proof.
  split; [vm_compute; reflexivity |]. split; [vm_compute; reflexivity |].
  assert (Hlen : String.length long_message = 121%nat) by (vm_compute; reflexivity).
  assert (Hcut : forall n, (n < 121)%nat ->
                   Detail long_message <> Detail (str_slice_to n long_message)).
  { intros n Hn Heq.
    assert (Hc : characters long_message = 121%nat) by (vm_compute; reflexivity).
    pose proof (f_equal (fun b => match b with
                                  | Detail m => characters m
                                  | _ => 0%nat
                                  end) Heq) as Hs.
    cbv beta iota in Hs. rewrite str_slice_to_characters, Hc in Hs. lia. }
  split; [exact Hlen |]. split; [apply Hcut; lia | exact Hcut].
Qed.

(** [GET /config] with an empty environment. *)
Lemma config_defaults_witness :
  no_env !! "INSTAGRAM_USER" = None
  /\ no_env !! "GA_ID" = None
  /\ config no_env !! "instagram_user" = Some (VStr "lelesboutique")
  /\ config no_env !! "ga_id" = Some (VStr EmptyString).
Proof.
  split; [reflexivity |]. split; [reflexivity |].
  exact (proj2 (config_defaults no_env eq_refl eq_refl)).
Defined.

(** * Further properties of the handlers *)

(** ** Content endpoints: every limit, every query outcome *)

Lemma slice_to_fallback {A} (limit : option Z) (l : list A) :
  slice_to (int_or limit (len l)) l
  = take (Z.to_nat (fallback_length limit (len l))) l.
Proof.
  unfold fallback_length, int_or. destruct limit as [k |].
  - destruct (Z.eqb_spec k 0) as [-> | Hk].
    + rewrite slice_to_len. unfold len. rewrite Nat2Z.id. by rewrite firstn_all.
    + unfold slice_to. destruct (Z.ltb_spec 0 k), (Z.leb_spec 0 k); try lia.
      * destruct (Z.le_gt_cases k (len l)).
        -- by rewrite Z.min_l.
        -- rewrite Z.min_r by lia. unfold len in *.
           rewrite Nat2Z.id, firstn_all. apply take_ge. lia.
      * f_equal. lia.
  - rewrite slice_to_len. unfold len. rewrite Nat2Z.id. by rewrite firstn_all.
Qed.

Lemma fallback_length_bounds (limit : option Z) (n : Z) :
  0 <= n -> 0 <= fallback_length limit n <= n.
Proof.
  intros Hn. unfold fallback_length. destruct limit as [k |]; [| lia].
  destruct (Z.eqb_spec k 0); [lia |]. destruct (Z.ltb_spec 0 k); lia.
Qed.

Lemma samples_conform (t : content_type) :
  Forall (fun d => conforms t d = true) (sample_of t).
Proof. destruct t; repeat constructor. Qed.

Lemma samples_without_id (t : content_type) :
  Forall (fun d : doc => d !! "_id" = None) (sample_of t).
Proof. destruct t; repeat constructor. Qed.

Section ContentExtras.

Variable get_documents : string -> doc -> option Z -> M World exn (list doc).

(** Each content handler, as a function of what the query gives. *)
Lemma GET_content_unfold (t : content_type) (limit : option Z) (w : World) :
  GET_content get_documents t limit w =
    match get_documents (collection_of t) ∅ limit w with
    | (inl e, w1) => (inl e, w1)
    | (inr docs, w1) =>
        (inr (if falsy docs
              then slice_to (int_or limit (len (sample_of t))) (sample_of t)
              else pop_id <$> docs), w1)
    end.
Proof.
  destruct t; simpl collection_of;
    unfold GET_content, list_services, list_products, list_testimonials,
      list_posts, bind;
    destruct (get_documents _ ∅ limit w) as [[e | [| d docs]] w1]; reflexivity.
Qed.

(** For every limit, positive, zero, negative or absent, the answer to a
    query that found nothing is a prefix of the sample list, and its
    length is given by [fallback_length]. *)
Theorem fallback_is_sample_prefix
    (t : content_type) (limit : option Z) (w w' : World) :
  get_documents (collection_of t) ∅ limit w = (inr [], w') ->
  exists out,
    GET_content get_documents t limit w = (inr out, w')
    /\ out = take (Z.to_nat (fallback_length limit (len (sample_of t)))) (sample_of t)
    /\ len out = fallback_length limit (len (sample_of t)).
Proof.
  intros Hq. eexists. split; [| split; [reflexivity |]].
  - rewrite GET_content_unfold, Hq. simpl falsy. cbv iota.
    by rewrite slice_to_fallback.
  - pose proof (fallback_length_bounds limit (len (sample_of t))) as Hb.
    unfold len in *. rewrite length_take. lia.
Qed.

(** A negative limit [n] drops the last [-n] samples from the fallback,
    and a limit of minus the sample size or below yields an empty list,
    although the collection was empty and the sample is not. *)
Theorem negative_limit_shortens_fallback
    (t : content_type) (n : Z) (w w' : World) :
  get_documents (collection_of t) ∅ (Some n) w = (inr [], w') ->
  n < 0 ->
  GET_content get_documents t (Some n) w
    = (inr (take (Z.to_nat (len (sample_of t) + n)) (sample_of t)), w')
  /\ (n <= - len (sample_of t) ->
      GET_content get_documents t (Some n) w = (inr [], w')).
Proof.
  intros Hq Hn.
  assert (Hget : GET_content get_documents t (Some n) w
    = (inr (take (Z.to_nat (len (sample_of t) + n)) (sample_of t)), w')).
  { rewrite GET_content_unfold, Hq. simpl falsy. cbv iota.
    unfold int_or, slice_to.
    destruct (Z.eqb_spec n 0); [lia |]. destruct (Z.leb_spec 0 n); [lia |].
    reflexivity. }
  split; [exact Hget |].
  intros Hle. rewrite Hget.
  replace (Z.to_nat (len (sample_of t) + n)) with 0%nat by lia. reflexivity.
Qed.

(** A content handler raises exactly when its query raises, with the
    same error: the sample list stands in for an empty result only, not
    for a failed query.  In every case the handler leaves the world as
    the query left it. *)
Theorem content_error_is_query_error
    (t : content_type) (limit : option Z) (w w' : World) (e : exn) :
  (GET_content get_documents t limit w = (inl e, w')
   <-> get_documents (collection_of t) ∅ limit w = (inl e, w'))
  /\ snd (GET_content get_documents t limit w)
     = snd (get_documents (collection_of t) ∅ limit w).
Proof.
  rewrite GET_content_unfold.
  destruct (get_documents (collection_of t) ∅ limit w) as [[e' | docs] w1]; simpl.
  - split; [tauto | reflexivity].
  - split; [| reflexivity]. split; intros H; discriminate H.
Qed.

(** Stored records come back in the same number and order whatever the
    limit given to the handler, each with every field other than
    ["_id"] as stored; a record without ["_id"] comes back as it is. *)
Theorem stripping_keeps_other_fields
    (t : content_type) (limit : option Z) (w w' : World) (docs : list doc) :
  get_documents (collection_of t) ∅ limit w = (inr docs, w') ->
  docs <> [] ->
  exists out,
    GET_content get_documents t limit w = (inr out, w')
    /\ length out = length docs
    /\ forall (i : nat) (d : doc), docs !! i = Some d ->
         exists d', out !! i = Some d'
           /\ (forall k, k <> "_id" -> d' !! k = d !! k)
           /\ (d !! "_id" = None -> d' = d).
Proof.
  intros Hq Hne. exists (pop_id <$> docs). split; [| split].
  - rewrite GET_content_unfold, Hq. destruct docs; [congruence | reflexivity].
  - apply length_fmap.
  - intros i d Hi. exists (pop_id d). split; [| split].
    + rewrite list_lookup_fmap, Hi. reflexivity.
    + intros k Hk. unfold pop_id. by rewrite lookup_delete_ne.
    + intros Hnone. unfold pop_id. by apply delete_id.
Qed.

(** Whatever the query returns and whatever the limit, no record of a
    successful answer carries the ["_id"] key: neither the stored
    records, which are stripped, nor the samples, which never have it. *)
Theorem no_answer_exposes_id
    (t : content_type) (limit : option Z) (w w' : World) (out : list doc) :
  GET_content get_documents t limit w = (inr out, w') ->
  Forall (fun d : doc => d !! "_id" = None) out.
Proof.
  rewrite GET_content_unfold.
  destruct (get_documents (collection_of t) ∅ limit w) as [[e | docs] w1];
    [discriminate |].
  intros [= <- _].
  destruct (falsy docs).
  - rewrite slice_to_fallback. apply Forall_take, samples_without_id.
  - apply Forall_fmap, Forall_forall. intros d _. simpl.
    unfold pop_id. apply lookup_delete_eq.
Qed.

(** Every record answered from a sample list satisfies the response
    model declared for its endpoint, for every limit. *)
Theorem fallback_conforms_to_model
    (t : content_type) (limit : option Z) (w w' : World) :
  get_documents (collection_of t) ∅ limit w = (inr [], w') ->
  exists out,
    GET_content get_documents t limit w = (inr out, w')
    /\ Forall (fun d => conforms t d = true) out.
Proof.
  intros Hq. eexists. split.
  - rewrite GET_content_unfold, Hq. reflexivity.
  - simpl falsy. cbv iota. rewrite slice_to_fallback.
    apply Forall_take, samples_conform.
Qed.

End ContentExtras.

(** ** The notification: every outcome of [send_email] *)

Lemma truthy_opt_or (x y : option string) :
  truthy y = true -> truthy (opt_or x y) = true.
Proof. intros Hy. unfold opt_or. destruct (truthy x) eqn:Hx; assumption. Qed.

Lemma new_calls_app (w : World) (st : Store) (cs : list call) :
  new_calls w {| store := st; calls := calls w ++ cs |} = cs.
Proof. unfold new_calls. simpl. apply drop_app_length. Qed.

(** Case analysis on the outcome of every library call of a delivery. *)
Ltac mail_cases fault :=
  unfold set_header, set_content, with_SMTP, bind, invoke, ret;
  repeat match goal with
         | |- context [fault ?c] => destruct (fault c) eqn:?; cbn [store calls fst snd]
         end.

Section NotificationExtras.

Variable environ : gmap string string.
Variable fault : call -> option exn.
Variable int_other : string -> exn + Z.

(** The guard of [send_email] is decided by host, user, password and
    recipient: the sender is set as soon as the user is. *)
Lemma guard_is_configured (to_email : string) :
  truthy (getenv environ "SMTP_HOST") && truthy (getenv environ "SMTP_USER")
    && truthy (getenv environ "SMTP_PASS")
    && truthy (opt_or (getenv environ "EMAIL_FROM") (getenv environ "SMTP_USER"))
    && truthy (Some to_email)
  = configured environ to_email.
Proof.
  unfold configured.
  destruct (truthy (getenv environ "SMTP_USER")) eqn:Hu.
  - rewrite truthy_opt_or by exact Hu. by rewrite andb_true_r.
  - by rewrite andb_false_r.
Qed.

Lemma send_email_unfold (subject body to_email : string) (w : World) :
  send_email environ fault int_other subject body to_email w =
    match int int_other (getenv_default environ "SMTP_PORT" "587") with
    | inl e => (inl e, w)
    | inr port =>
        if configured environ to_email then
          (msg <- set_header fault {| headers := []; content := None |} "Subject" subject ;;
           msg <- set_header fault msg "From"
                    (the (opt_or (getenv environ "EMAIL_FROM") (getenv environ "SMTP_USER"))) ;;
           msg <- set_header fault msg "To" to_email ;;
           msg <- set_content fault msg body ;;
           with_SMTP fault (the (getenv environ "SMTP_HOST")) port
             (invoke fault SMTP_starttls ;;
              invoke fault (SMTP_login (the (getenv environ "SMTP_USER"))
                                       (the (getenv environ "SMTP_PASS"))) ;;
              invoke fault (SMTP_send_message msg)) ;;
           ret true) w
        else (inr false, w)
    end.
Proof.
  unfold send_email. unfold bind at 1. unfold lift.
  destruct (int int_other (getenv_default environ "SMTP_PORT" "587")) as [e | port];
    [reflexivity |].
  rewrite guard_is_configured. destruct (configured environ to_email); reflexivity.
Qed.

(** When the port parses, the four settings are there and no call of the
    delivery fails, the nine calls are made and [True] is returned. *)
Lemma send_email_delivered (subject body to_email : string) (port : Z) (w : World) :
  int int_other (getenv_default environ "SMTP_PORT" "587") = inr port ->
  configured environ to_email = true ->
  Forall (fun c => fault c = None)
    (delivery subject body to_email
       (the (opt_or (getenv environ "EMAIL_FROM") (getenv environ "SMTP_USER")))
       (the (getenv environ "SMTP_HOST")) (the (getenv environ "SMTP_USER"))
       (the (getenv environ "SMTP_PASS")) port) ->
  send_email environ fault int_other subject body to_email w
  = (inr true,
     {| store := store w;
        calls := calls w ++
          delivery subject body to_email
            (the (opt_or (getenv environ "EMAIL_FROM") (getenv environ "SMTP_USER")))
            (the (getenv environ "SMTP_HOST")) (the (getenv environ "SMTP_USER"))
            (the (getenv environ "SMTP_PASS")) port |}).
Proof.
  intros Hport Hc Hall. rewrite send_email_unfold, Hport, Hc.
  unfold delivery in Hall.
  repeat match goal with
         | H : Forall _ (_ :: _) |- _ => apply Forall_cons in H; destruct H as [? H]
         end.
  unfold set_header, set_content, with_SMTP, bind, invoke, ret.
  repeat match goal with
         | |- context [fault ?c] =>
             replace (fault c) with (@None exn) by (symmetry; assumption);
             cbn [store calls fst snd]
         end.
  rewrite <- !app_assoc. reflexivity.
Qed.

(** Without one of the four settings, and with a port that parses,
    nothing is called and [False] is returned. *)
Lemma send_email_skipped (subject body to_email : string) (port : Z) (w : World) :
  int int_other (getenv_default environ "SMTP_PORT" "587") = inr port ->
  configured environ to_email = false ->
  send_email environ fault int_other subject body to_email w = (inr false, w).
Proof. intros Hport Hc. rewrite send_email_unfold, Hport, Hc. reflexivity. Qed.

Lemma send_email_store (subject body to_email : string) (w : World) :
  store (snd (send_email environ fault int_other subject body to_email w)) = store w.
Proof.
  rewrite send_email_unfold.
  destruct (int int_other (getenv_default environ "SMTP_PORT" "587")) as [e | port];
    [reflexivity |].
  destruct (configured environ to_email); [| reflexivity].
  mail_cases fault; reflexivity.
Qed.

(** [send_email] returns [False] exactly when the port parses and one of
    host, user, password and recipient is missing or empty; it has then
    called no library and changed nothing. *)
Theorem send_email_false_iff (subject body to_email : string) (w w' : World) :
  send_email environ fault int_other subject body to_email w = (inr false, w')
  <-> (exists port, int int_other (getenv_default environ "SMTP_PORT" "587") = inr port)
      /\ configured environ to_email = false
      /\ w' = w.
Proof.
  rewrite send_email_unfold.
  destruct (int int_other (getenv_default environ "SMTP_PORT" "587")) as [e | port].
  - split; [discriminate |]. intros [[port Hp] _]. discriminate.
  - destruct (configured environ to_email).
    + split; [| intros (_ & H & _); discriminate].
      intros H. exfalso.
      assert (Hnf : never_false
        (msg <- set_header fault {| headers := []; content := None |} "Subject" subject ;;
         msg <- set_header fault msg "From"
                  (the (opt_or (getenv environ "EMAIL_FROM") (getenv environ "SMTP_USER"))) ;;
         msg <- set_header fault msg "To" to_email ;;
         msg <- set_content fault msg body ;;
         with_SMTP fault (the (getenv environ "SMTP_HOST")) port
           (invoke fault SMTP_starttls ;;
            invoke fault (SMTP_login (the (getenv environ "SMTP_USER"))
                                     (the (getenv environ "SMTP_PASS"))) ;;
            invoke fault (SMTP_send_message msg)) ;;
         ret true)).
      { repeat (apply never_false_bind; intros ?). apply never_false_ret. }
      apply (Hnf w). rewrite H. reflexivity.
    + split.
      * intros [= <-]. eauto.
      * intros (_ & _ & ->). reflexivity.
Qed.

(** [send_email] returns [True] exactly when the port parses, host,
    user, password and recipient are set, and none of the nine calls of
    the delivery fails; the calls logged are then those nine, in order,
    and the store is untouched. *)
Theorem send_email_true_iff (subject body to_email : string) (w w' : World) :
  send_email environ fault int_other subject body to_email w = (inr true, w')
  <-> exists port,
        int int_other (getenv_default environ "SMTP_PORT" "587") = inr port
        /\ configured environ to_email = true
        /\ Forall (fun c => fault c = None)
             (delivery subject body to_email
                (the (opt_or (getenv environ "EMAIL_FROM") (getenv environ "SMTP_USER")))
                (the (getenv environ "SMTP_HOST")) (the (getenv environ "SMTP_USER"))
                (the (getenv environ "SMTP_PASS")) port)
        /\ w' = {| store := store w;
                   calls := calls w ++
                     delivery subject body to_email
                       (the (opt_or (getenv environ "EMAIL_FROM") (getenv environ "SMTP_USER")))
                       (the (getenv environ "SMTP_HOST")) (the (getenv environ "SMTP_USER"))
                       (the (getenv environ "SMTP_PASS")) port |}.
Proof.
  split.
  - rewrite send_email_unfold.
    destruct (int int_other (getenv_default environ "SMTP_PORT" "587")) as [e | port];
      [discriminate |].
    destruct (configured environ to_email); [| discriminate].
    mail_cases fault; intros H; try discriminate H.
    injection H as <-. exists port. split; [reflexivity |]. split; [reflexivity |].
    split.
    + unfold delivery. repeat constructor; assumption.
    + rewrite <- !app_assoc. reflexivity.
  - intros (port & Hp & Hc & Hall & ->). by apply send_email_delivered.
Qed.

(** Whatever the configuration and whatever fails, [send_email] leaves
    the store as it was and only appends to the log of calls. *)
Theorem send_email_keeps_store (subject body to_email : string) (w : World) :
  store (snd (send_email environ fault int_other subject body to_email w)) = store w
  /\ calls w `prefix_of` calls (snd (send_email environ fault int_other subject body to_email w)).
Proof.
  rewrite send_email_unfold.
  destruct (int int_other (getenv_default environ "SMTP_PORT" "587")) as [e | port].
  { split; [reflexivity | by exists []; rewrite app_nil_r]. }
  destruct (configured environ to_email).
  2:{ split; [reflexivity | by exists []; rewrite app_nil_r]. }
  mail_cases fault; (split; [reflexivity |]); cbn [snd calls];
    rewrite <- ?app_assoc; apply prefix_app_r; reflexivity.
Qed.

Lemma new_calls_same (w : World) : new_calls w w = [].
Proof. unfold new_calls. apply drop_all. Qed.

(** The order of the SMTP session, whatever fails.  A connection that
    was opened is always quit, and quitting is the last call made.  A
    message is handed to the server only after [starttls] and the login
    succeeded, and it carries the subject, the sender and the recipient
    in its headers and the body as content. *)
Theorem smtp_session_discipline (subject body to_email : string) (w : World) :
  let w' := snd (send_email environ fault int_other subject body to_email w) in
  (forall h port,
     In (SMTP_connect h port) (new_calls w w') ->
     fault (SMTP_connect h port) = None ->
     last (new_calls w w') = Some SMTP_quit)
  /\ (forall m,
        In (SMTP_send_message m) (new_calls w w') ->
        fault SMTP_starttls = None
        /\ fault (SMTP_login (the (getenv environ "SMTP_USER"))
                             (the (getenv environ "SMTP_PASS"))) = None
        /\ headers m
           = [("Subject", subject);
              ("From", the (opt_or (getenv environ "EMAIL_FROM")
                                   (getenv environ "SMTP_USER")));
              ("To", to_email)]
        /\ content m = Some body).
Proof.
  rewrite send_email_unfold.
  destruct (int int_other (getenv_default environ "SMTP_PORT" "587")) as [e | port].
  { cbn [snd]. rewrite new_calls_same. split; [intros ? ? [] | intros ? []]. }
  destruct (configured environ to_email).
  2:{ cbn [snd]. rewrite new_calls_same. split; [intros ? ? [] | intros ? []]. }
  mail_cases fault; cbn [snd]; rewrite <- ?app_assoc; cbn [app];
    rewrite new_calls_app; (split; [intros h p Hin Hok | intros m Hin]);
    simpl in Hin;
    repeat (destruct Hin as [Hin | Hin]; [try discriminate Hin |]);
    try contradiction;
    try (injection Hin as <- <-; first [reflexivity | congruence]);
    try (injection Hin as <-; repeat split; first [assumption | reflexivity]).
Qed.

(** With host, user, password and recipient set, a non-empty
    [EMAIL_FROM] is the sender while the login still uses [SMTP_USER];
    with [SMTP_PORT] unset the session goes to port 587.  When no call
    fails the function returns [True] after exactly the nine calls of
    the delivery. *)
Theorem sender_prefers_EMAIL_FROM
    (subject body to_email h u p f : string) (w : World) :
  getenv environ "SMTP_HOST" = Some h -> h <> EmptyString ->
  getenv environ "SMTP_USER" = Some u -> u <> EmptyString ->
  getenv environ "SMTP_PASS" = Some p -> p <> EmptyString ->
  getenv environ "EMAIL_FROM" = Some f -> f <> EmptyString ->
  environ !! "SMTP_PORT" = None ->
  to_email <> EmptyString ->
  (forall c, fault c = None) ->
  send_email environ fault int_other subject body to_email w
  = (inr true,
     {| store := store w;
        calls := calls w ++ delivery subject body to_email f h u p 587 |}).
Proof.
  intros Hh Hh' Hu Hu' Hp Hp' Hf Hf' Hport Hto Hfault.
  assert (Hs : opt_or (getenv environ "EMAIL_FROM") (getenv environ "SMTP_USER") = Some f).
  { unfold opt_or. rewrite Hf. by rewrite truthy_nonempty. }
  rewrite (send_email_delivered subject body to_email 587 w).
  - rewrite Hs, Hh, Hu, Hp. reflexivity.
  - unfold getenv_default. rewrite Hport. reflexivity.
  - unfold configured. rewrite Hh, Hu, Hp. by rewrite !truthy_nonempty.
  - apply Forall_forall. intros c _. apply Hfault.
Qed.

End NotificationExtras.

(** ** Validation of the request bodies *)

Lemma required_str_error (json : doc) (f : string) (es : list field_error) :
  required_str json f = inl es -> exists e, es = [e] /\ error_field e = f.
Proof.
  unfold required_str.
  destruct (json !! f) as [[| | | | |] |]; intros [= <-]; eauto.
Qed.

Lemma optional_str_error (json : doc) (f : string) (dflt : option string)
    (es : list field_error) :
  optional_str json f dflt = inl es -> exists e, es = [e] /\ error_field e = f.
Proof.
  unfold optional_str.
  destruct (json !! f) as [[| | | | |] |]; intros [= <-]; eauto.
Qed.

Lemma required_str_insert_ne (json : doc) (f k : string) (v : value) :
  k <> f -> required_str (<[k := v]> json) f = required_str json f.
Proof. intros Hk. unfold required_str. by rewrite lookup_insert_ne. Qed.

Lemma optional_str_insert_ne (json : doc) (f k : string) (v : value)
    (dflt : option string) :
  k <> f -> optional_str (<[k := v]> json) f dflt = optional_str json f dflt.
Proof. intros Hk. unfold optional_str. by rewrite lookup_insert_ne. Qed.

Section ValidationExtras.

Variable validate_email : string -> option string.

Lemma email_str_error (json : doc) (f : string) (es : list field_error) :
  email_str validate_email json f = inl es -> exists e, es = [e] /\ error_field e = f.
Proof.
  unfold email_str.
  destruct (json !! f) as [[| | | s | |] |]; try (intros [= <-]; eauto).
  destruct (validate_email s); intros [= <-]; eauto.
Qed.

Lemma email_str_insert_ne (json : doc) (f k : string) (v : value) :
  k <> f -> email_str validate_email (<[k := v]> json) f = email_str validate_email json f.
Proof. intros Hk. unfold email_str. by rewrite lookup_insert_ne. Qed.

(** Puts the error list of a failed field in the form [[e]]. *)
Ltac field_errors :=
  repeat match goal with
         | H : required_str _ _ = inl _ |- _ =>
             apply required_str_error in H; destruct H as (? & -> & ?)
         | H : optional_str _ _ _ = inl _ |- _ =>
             apply optional_str_error in H; destruct H as (? & -> & ?)
         | H : email_str _ _ _ = inl _ |- _ =>
             apply email_str_error in H; destruct H as (? & -> & ?)
         end.

(** Closes the three facts about a list of errors whose fields are
    known. *)
Ltac named_fields :=
  split; [discriminate |];
  split;
  [ repeat (constructor; [simpl; intuition congruence |]); constructor
  | repeat match goal with
           | H : error_field _ = _ |- _ => rewrite H; clear H
           end;
    apply (bool_decide_unpack _); vm_compute; exact I ].

(** A rejected body always comes with at least one error; every error
    names a field the model declares, and no field is named twice. *)
Theorem validation_errors_name_fields (json : doc) (errs : list field_error) :
  (Lead_validate validate_email json = inl errs ->
     errs <> []
     /\ Forall (fun e => In (error_field e) Lead_fields) errs
     /\ NoDup (error_field <$> errs))
  /\ (Booking_validate validate_email json = inl errs ->
        errs <> []
        /\ Forall (fun e => In (error_field e) Booking_fields) errs
        /\ NoDup (error_field <$> errs)).
Proof.
  split.
  - unfold Lead_validate.
    destruct (required_str json "name") eqn:?, (email_str validate_email json "email") eqn:?,
      (optional_str json "phone" None) eqn:?, (optional_str json "message" None) eqn:?,
      (optional_str json "source" (Some "website")) eqn:?;
      intros [= <-]; field_errors; simpl; named_fields.
  - unfold Booking_validate.
    destruct (required_str json "name") eqn:?, (email_str validate_email json "email") eqn:?,
      (optional_str json "phone" None) eqn:?, (required_str json "service") eqn:?,
      (required_str json "date") eqn:?, (optional_str json "notes" None) eqn:?;
      intros [= <-]; field_errors; simpl; named_fields.
Qed.

(** A field the model does not declare has no effect on validation,
    whatever its value. *)
Theorem validation_ignores_other_fields (json : doc) (k : string) (v : value) :
  (~ In k Lead_fields ->
     Lead_validate validate_email (<[k := v]> json) = Lead_validate validate_email json)
  /\ (~ In k Booking_fields ->
        Booking_validate validate_email (<[k := v]> json)
        = Booking_validate validate_email json).
Proof.
  split; intros Hk; simpl in Hk.
  - unfold Lead_validate.
    rewrite !required_str_insert_ne, !email_str_insert_ne, !optional_str_insert_ne
      by (intros ->; tauto).
    reflexivity.
  - unfold Booking_validate.
    rewrite !required_str_insert_ne, !email_str_insert_ne, !optional_str_insert_ne
      by (intros ->; tauto).
    reflexivity.
Qed.

(** A booking body that lacks one of the required fields name, email,
    service and date is refused with an error that names the field. *)
Theorem booking_requires_fields (json : doc) (f : string) :
  In f ["name"; "email"; "service"; "date"] ->
  json !! f = None ->
  exists errs,
    Booking_validate validate_email json = inl errs /\ In (Missing f) errs.
Proof.
  intros Hf Hnone. simpl in Hf.
  unfold Booking_validate.
  destruct Hf as [<- | [<- | [<- | [<- | []]]]].
  - assert (Hr : required_str json "name" = inl [Missing "name"])
      by (unfold required_str; by rewrite Hnone).
    rewrite Hr.
    destruct (email_str validate_email json "email"), (optional_str json "phone" None),
      (required_str json "service"), (required_str json "date"),
      (optional_str json "notes" None);
      eexists; (split; [reflexivity |]); simpl; tauto.
  - assert (Hr : email_str validate_email json "email" = inl [Missing "email"])
      by (unfold email_str; by rewrite Hnone).
    rewrite Hr.
    destruct (required_str json "name"), (optional_str json "phone" None),
      (required_str json "service"), (required_str json "date"),
      (optional_str json "notes" None);
      eexists; (split; [reflexivity |]); simpl; rewrite ?in_app_iff; simpl; tauto.
  - assert (Hr : required_str json "service" = inl [Missing "service"])
      by (unfold required_str; by rewrite Hnone).
    rewrite Hr.
    destruct (required_str json "name"), (email_str validate_email json "email"),
      (optional_str json "phone" None), (required_str json "date"),
      (optional_str json "notes" None);
      eexists; (split; [reflexivity |]); simpl; rewrite ?in_app_iff; simpl; tauto.
  - assert (Hr : required_str json "date" = inl [Missing "date"])
      by (unfold required_str; by rewrite Hnone).
    rewrite Hr.
    destruct (required_str json "name"), (email_str validate_email json "email"),
      (optional_str json "phone" None), (required_str json "service"),
      (optional_str json "notes" None);
      eexists; (split; [reflexivity |]); simpl; rewrite ?in_app_iff; simpl; tauto.
Qed.

End ValidationExtras.

(** ** The write endpoints: every outcome *)

Section WriteExtras.

Variable environ : gmap string string.
Variable fault : call -> option exn.
Variable int_other : string -> exn + Z.
Variable object_id : N -> Identifier.
Variable validate_email : string -> option string.

Lemma Lead_validate_errors_nonempty (json : doc) (errs : list field_error) :
  Lead_validate validate_email json = inl errs -> errs <> [].
Proof.
  unfold Lead_validate.
  destruct (required_str json "name") eqn:?, (email_str validate_email json "email") eqn:?,
    (optional_str json "phone" None) eqn:?, (optional_str json "message" None) eqn:?,
    (optional_str json "source" (Some "website")) eqn:?;
    intros [= <-];
    repeat match goal with
           | H : required_str _ _ = inl _ |- _ =>
               apply required_str_error in H; destruct H as (? & -> & ?)
           | H : optional_str _ _ _ = inl _ |- _ =>
               apply optional_str_error in H; destruct H as (? & -> & ?)
           | H : email_str _ _ _ = inl _ |- _ =>
               apply email_str_error in H; destruct H as (? & -> & ?)
           end; discriminate.
Qed.

Lemma Booking_validate_errors_nonempty (json : doc) (errs : list field_error) :
  Booking_validate validate_email json = inl errs -> errs <> [].
Proof.
  unfold Booking_validate.
  destruct (required_str json "name") eqn:?, (email_str validate_email json "email") eqn:?,
    (optional_str json "phone" None) eqn:?, (required_str json "service") eqn:?,
    (required_str json "date") eqn:?, (optional_str json "notes" None) eqn:?;
    intros [= <-];
    repeat match goal with
           | H : required_str _ _ = inl _ |- _ =>
               apply required_str_error in H; destruct H as (? & -> & ?)
           | H : optional_str _ _ _ = inl _ |- _ =>
               apply optional_str_error in H; destruct H as (? & -> & ?)
           | H : email_str _ _ _ = inl _ |- _ =>
               apply email_str_error in H; destruct H as (? & -> & ?)
           end; discriminate.
Qed.

(** [create_lead], as a function of what persistence and the
    notification give. *)
Lemma create_lead_unfold (payload : Lead) (w : World) :
  create_lead environ fault int_other object_id payload w =
    match create_document object_id "lead" (Lead_dict payload) w with
    | (inl e, w1) => (inl {| status_code := 500; detail := str_exn e |}, w1)
    | (inr lead_id, w1) =>
        match send_email environ fault int_other "New Lead – Lele's Boutique"
                (lead_mail_body payload)
                (str_or (getenv environ "EMAIL_TO") EmptyString) w1 with
        | (inl e, w2) => (inl {| status_code := 500; detail := str_exn e |}, w2)
        | (inr _, w2) => (inr {[ "status" := VStr "ok"; "id" := VStr lead_id ]}, w2)
        end
    end.
Proof.
  unfold create_lead, try_except, create_lead_try. unfold bind at 1.
  destruct (create_document object_id "lead" (Lead_dict payload) w) as [[e | i] w1];
    [reflexivity |].
  unfold bind at 1.
  destruct (send_email _ _ _ _ _ _ w1) as [[e | b] w2]; reflexivity.
Qed.

Lemma create_booking_unfold (payload : Booking) (w : World) :
  create_booking environ fault int_other object_id payload w =
    match create_document object_id "booking" (Booking_dict payload) w with
    | (inl e, w1) => (inl {| status_code := 500; detail := str_exn e |}, w1)
    | (inr booking_id, w1) =>
        match send_email environ fault int_other "New Booking – Lele's Boutique"
                (booking_mail_body payload)
                (str_or (getenv environ "EMAIL_TO") EmptyString) w1 with
        | (inl e, w2) => (inl {| status_code := 500; detail := str_exn e |}, w2)
        | (inr _, w2) => (inr {[ "status" := VStr "ok"; "id" := VStr booking_id ]}, w2)
        end
    end.
Proof.
  unfold create_booking, try_except, create_booking_try. unfold bind at 1.
  destruct (create_document object_id "booking" (Booking_dict payload) w) as [[e | i] w1];
    [reflexivity |].
  unfold bind at 1.
  destruct (send_email _ _ _ _ _ _ w1) as [[e | b] w2]; reflexivity.
Qed.

(** The recipient is [EMAIL_TO]; without it nothing is configured. *)
Lemma not_configured_without (to_email : string) :
  truthy (getenv environ "SMTP_HOST") = false
  \/ truthy (getenv environ "SMTP_USER") = false
  \/ truthy (getenv environ "SMTP_PASS") = false
  \/ truthy (Some to_email) = false ->
  configured environ to_email = false.
Proof.
  unfold configured. intros [-> | [-> | [-> | ->]]];
    rewrite ?andb_false_r; reflexivity.
Qed.

Lemma truthy_str_or (x : option string) :
  truthy (Some (str_or x EmptyString)) = truthy x.
Proof. destruct x as [[| c r] |]; reflexivity. Qed.

(** The three answers of the write endpoints.  [POST /lead] and
    [POST /book] answer 422 with a non-empty list of errors and an
    unchanged world, or 200 with exactly the keys [status], equal to
    "ok", and [id], or 500 with the text of an exception; nothing else. *)
Theorem write_endpoints_answer (json : doc) (w : World) :
  ((exists errs, errs <> []
      /\ POST_lead environ fault int_other object_id validate_email json w
         = ({| status := 422; body := ValidationErrors errs |}, w))
   \/ (exists i w', POST_lead environ fault int_other object_id validate_email json w
         = ({| status := 200; body := JSON {[ "status" := VStr "ok"; "id" := VStr i ]} |}, w'))
   \/ (exists e w', POST_lead environ fault int_other object_id validate_email json w
         = ({| status := 500; body := Detail (str_exn e) |}, w')))
  /\ ((exists errs, errs <> []
         /\ POST_book environ fault int_other object_id validate_email json w
            = ({| status := 422; body := ValidationErrors errs |}, w))
      \/ (exists i w', POST_book environ fault int_other object_id validate_email json w
            = ({| status := 200; body := JSON {[ "status" := VStr "ok"; "id" := VStr i ]} |}, w'))
      \/ (exists e w', POST_book environ fault int_other object_id validate_email json w
            = ({| status := 500; body := Detail (str_exn e) |}, w'))).
Proof.
  split.
  - unfold POST_lead.
    destruct (Lead_validate validate_email json) as [errs | payload] eqn:Hv.
    { left. exists errs. split; [by eapply Lead_validate_errors_nonempty | reflexivity]. }
    right. rewrite create_lead_unfold.
    destruct (create_document _ _ _ w) as [[e | i] w1]; [right; by exists e, w1 |].
    destruct (send_email _ _ _ _ _ _ w1) as [[e | b] w2];
      [right; by exists e, w2 | left; by exists i, w2].
  - unfold POST_book.
    destruct (Booking_validate validate_email json) as [errs | payload] eqn:Hv.
    { left. exists errs. split; [by eapply Booking_validate_errors_nonempty | reflexivity]. }
    right. rewrite create_booking_unfold.
    destruct (create_document _ _ _ w) as [[e | i] w1]; [right; by exists e, w1 |].
    destruct (send_email _ _ _ _ _ _ w1) as [[e | b] w2];
      [right; by exists e, w2 | left; by exists i, w2].
Qed.

(** A notification that raises turns a lead or booking that was already
    persisted into a 500: the answer carries the error of the
    notification, and the store is left as persistence left it, with
    the record in it. *)
Theorem stored_then_500 :
  (forall json payload w i w1 e w2,
     Lead_validate validate_email json = inr payload ->
     create_document object_id "lead" (Lead_dict payload) w = (inr i, w1) ->
     send_email environ fault int_other "New Lead – Lele's Boutique" (lead_mail_body payload)
       (str_or (getenv environ "EMAIL_TO") EmptyString) w1 = (inl e, w2) ->
     POST_lead environ fault int_other object_id validate_email json w
       = ({| status := 500; body := Detail (str_exn e) |}, w2)
     /\ store w2 = store w1)
  /\ (forall json payload w i w1 e w2,
        Booking_validate validate_email json = inr payload ->
        create_document object_id "booking" (Booking_dict payload) w = (inr i, w1) ->
        send_email environ fault int_other "New Booking – Lele's Boutique" (booking_mail_body payload)
          (str_or (getenv environ "EMAIL_TO") EmptyString) w1 = (inl e, w2) ->
        POST_book environ fault int_other object_id validate_email json w
          = ({| status := 500; body := Detail (str_exn e) |}, w2)
        /\ store w2 = store w1).
Proof.
  split; intros json payload w i w1 e w2 Hv Hc Hs.
  - split.
    + unfold POST_lead. rewrite Hv, create_lead_unfold, Hc, Hs. reflexivity.
    + pose proof (send_email_store environ fault int_other "New Lead – Lele's Boutique"
                    (lead_mail_body payload)
                    (str_or (getenv environ "EMAIL_TO") EmptyString) w1) as H.
      rewrite Hs in H. exact H.
  - split.
    + unfold POST_book. rewrite Hv, create_booking_unfold, Hc, Hs. reflexivity.
    + pose proof (send_email_store environ fault int_other "New Booking – Lele's Boutique"
                    (booking_mail_body payload)
                    (str_or (getenv environ "EMAIL_TO") EmptyString) w1) as H.
      rewrite Hs in H. exact H.
Qed.

(** When one of [SMTP_HOST], [SMTP_USER], [SMTP_PASS] and [EMAIL_TO] is
    unset or empty and the port parses, a persisted lead or booking is
    answered with 200 and its identifier, and no mail library is called,
    whatever those libraries would have done. *)
Theorem unconfigured_mail_does_not_block (port : Z) :
  int int_other (getenv_default environ "SMTP_PORT" "587") = inr port ->
  truthy (getenv environ "SMTP_HOST") = false
  \/ truthy (getenv environ "SMTP_USER") = false
  \/ truthy (getenv environ "SMTP_PASS") = false
  \/ truthy (getenv environ "EMAIL_TO") = false ->
  (forall json payload w i w1,
     Lead_validate validate_email json = inr payload ->
     create_document object_id "lead" (Lead_dict payload) w = (inr i, w1) ->
     POST_lead environ fault int_other object_id validate_email json w
       = ({| status := 200; body := JSON {[ "status" := VStr "ok"; "id" := VStr i ]} |}, w1))
  /\ (forall json payload w i w1,
        Booking_validate validate_email json = inr payload ->
        create_document object_id "booking" (Booking_dict payload) w = (inr i, w1) ->
        POST_book environ fault int_other object_id validate_email json w
          = ({| status := 200; body := JSON {[ "status" := VStr "ok"; "id" := VStr i ]} |},
             w1)).
Proof.
  intros Hport Hmiss.
  assert (Hc : configured environ (str_or (getenv environ "EMAIL_TO") EmptyString) = false).
  { apply not_configured_without. rewrite truthy_str_or. exact Hmiss. }
  split; intros json payload w i w1 Hv Hd.
  - unfold POST_lead. rewrite Hv, create_lead_unfold, Hd.
    rewrite (send_email_skipped environ fault int_other _ _ _ port w1 Hport Hc). reflexivity.
  - unfold POST_book. rewrite Hv, create_booking_unfold, Hd.
    rewrite (send_email_skipped environ fault int_other _ _ _ port w1 Hport Hc). reflexivity.
Qed.

(** With a complete configuration and libraries that do not fail, a
    persisted lead is answered with 200 and exactly one message is sent:
    to [EMAIL_TO], with the lead subject and the lead text, through the
    nine calls of a delivery; a booking likewise with its own subject
    and text. *)
Theorem persisted_then_notified (h u p t : string) (port : Z) :
  getenv environ "SMTP_HOST" = Some h -> h <> EmptyString ->
  getenv environ "SMTP_USER" = Some u -> u <> EmptyString ->
  getenv environ "SMTP_PASS" = Some p -> p <> EmptyString ->
  getenv environ "EMAIL_TO" = Some t -> t <> EmptyString ->
  int int_other (getenv_default environ "SMTP_PORT" "587") = inr port ->
  (forall c, fault c = None) ->
  let sender := the (opt_or (getenv environ "EMAIL_FROM") (Some u)) in
  (forall json payload w i w1,
     Lead_validate validate_email json = inr payload ->
     create_document object_id "lead" (Lead_dict payload) w = (inr i, w1) ->
     POST_lead environ fault int_other object_id validate_email json w
       = ({| status := 200; body := JSON {[ "status" := VStr "ok"; "id" := VStr i ]} |},
          {| store := store w1;
             calls := calls w1 ++
               delivery "New Lead – Lele's Boutique" (lead_mail_body payload) t
                 sender h u p port |}))
  /\ (forall json payload w i w1,
        Booking_validate validate_email json = inr payload ->
        create_document object_id "booking" (Booking_dict payload) w = (inr i, w1) ->
        POST_book environ fault int_other object_id validate_email json w
          = ({| status := 200; body := JSON {[ "status" := VStr "ok"; "id" := VStr i ]} |},
             {| store := store w1;
                calls := calls w1 ++
                  delivery "New Booking – Lele's Boutique" (booking_mail_body payload) t
                    sender h u p port |})).
Proof.
  intros Hh Hh' Hu Hu' Hp Hp' Ht Ht' Hport Hfault sender.
  assert (Hto : str_or (getenv environ "EMAIL_TO") EmptyString = t).
  { rewrite Ht. destruct t; [congruence | reflexivity]. }
  assert (Hc : configured environ t = true).
  { unfold configured. rewrite Hh, Hu, Hp. by rewrite !truthy_nonempty. }
  assert (Hsend : forall subject text w1,
    send_email environ fault int_other subject text t w1
    = (inr true,
       {| store := store w1;
          calls := calls w1 ++ delivery subject text t sender h u p port |})).
  { intros subject text w1.
    rewrite (send_email_delivered environ fault int_other subject text t port w1 Hport Hc).
    - unfold sender. rewrite Hh, Hu, Hp. reflexivity.
    - apply Forall_forall. intros c _. apply Hfault. }
  split; intros json payload w i w1 Hv Hd.
  - unfold POST_lead. rewrite Hv, create_lead_unfold, Hd, Hto, Hsend. reflexivity.
  - unfold POST_book. rewrite Hv, create_booking_unfold, Hd, Hto, Hsend. reflexivity.
Qed.

(** Evaluates the lookups of literal keys in a dictionary that is
    written out. *)
Ltac eval_lookups :=
  repeat match goal with
         | |- context [@lookup string value doc _ ?k ?d] =>
             let v := eval vm_compute in (d !! k) in
             change (d !! k) with v
         end.

(** What validation accepted validates again to itself: the dictionary
    of a lead or booking whose address the syntax check keeps as it is
    passes validation and gives the same record back. *)
Theorem validate_dict_round_trip :
  (forall p : Lead,
     validate_email (lead_email p) = Some (lead_email p) ->
     Lead_validate validate_email (Lead_dict p) = inr p)
  /\ (forall b : Booking,
        validate_email (booking_email b) = Some (booking_email b) ->
        Booking_validate validate_email (Booking_dict b) = inr b).
Proof.
  split.
  - intros [n e ph m s] He. simpl in He.
    unfold Lead_validate, required_str, email_str, optional_str, Lead_dict.
    cbn [lead_name lead_email lead_phone lead_message lead_source].
    eval_lookups. destruct ph, m, s; cbv beta iota; rewrite He; reflexivity.
  - intros [n e ph s d o] He. simpl in He.
    unfold Booking_validate, required_str, email_str, optional_str, Booking_dict.
    cbn [booking_name booking_email booking_phone booking_service booking_date
         booking_notes].
    eval_lookups. destruct ph, o; cbv beta iota; rewrite He; reflexivity.
Qed.

End WriteExtras.


(** ** The sender and the first lead *)

Section SenderFallback.

Variable environ : gmap string string.
Variable fault : call -> option exn.
Variable int_other : string -> exn + Z.

(** C10, as amended.  With host, user, password and recipient all
    non-empty and [EMAIL_FROM] unset or empty, the sender is
    [SMTP_USER] and [send_email] never returns [False].  When the port
    converts to an integer the send is attempted with the user as
    sender, whatever fails later: the first call made sets the subject,
    the connection to the host is opened as soon as the four calls that
    build the message succeed, and when no call fails the message is
    sent with the user in its [From] header and [True] is returned. *)
Theorem sender_falls_back_to_user
    (subject body to_email h u p : string) :
  getenv environ "SMTP_HOST" = Some h -> h <> EmptyString ->
  getenv environ "SMTP_USER" = Some u -> u <> EmptyString ->
  getenv environ "SMTP_PASS" = Some p -> p <> EmptyString ->
  to_email <> EmptyString ->
  truthy (getenv environ "EMAIL_FROM") = false ->
  opt_or (getenv environ "EMAIL_FROM") (getenv environ "SMTP_USER") = Some u
  /\ (forall w, fst (send_email environ fault int_other subject body to_email w) <> inr false)
  /\ (forall w port,
        int int_other (getenv_default environ "SMTP_PORT" "587") = inr port ->
        let w' := snd (send_email environ fault int_other subject body to_email w) in
        (exists rest, new_calls w w' = SetHeader "Subject" subject :: rest)
        /\ (fault (SetHeader "Subject" subject) = None ->
            fault (SetHeader "From" u) = None ->
            fault (SetHeader "To" to_email) = None ->
            fault (SetContent body) = None ->
            In (SetHeader "From" u) (new_calls w w')
            /\ In (SMTP_connect h port) (new_calls w w'))
        /\ ((forall c, fault c = None) ->
            send_email environ fault int_other subject body to_email w
            = (inr true,
               {| store := store w;
                  calls := calls w ++ delivery subject body to_email u h u p port |}))).
Proof.
  intros Hh Hh' Hu Hu' Hp Hp' Hto Hfrom.
  assert (Hsender : opt_or (getenv environ "EMAIL_FROM") (getenv environ "SMTP_USER") = Some u).
  { unfold opt_or. rewrite Hfrom. exact Hu. }
  assert (Hc : configured environ to_email = true).
  { unfold configured. rewrite Hh, Hu, Hp. by rewrite !truthy_nonempty. }
  split; [exact Hsender |]. split.
  - intros w Hfalse.
    assert (Hf : send_email environ fault int_other subject body to_email w
                 = (inr false, snd (send_email environ fault int_other subject body to_email w))).
    { destruct (send_email environ fault int_other subject body to_email w) as [r w'].
      simpl in *. by rewrite Hfalse. }
    rewrite send_email_unfold in Hf.
    destruct (int int_other (getenv_default environ "SMTP_PORT" "587")) as [e | port];
      [discriminate |].
    rewrite Hc in Hf. revert Hf.
    generalize (snd (send_email environ fault int_other subject body to_email w)).
    intros w'. mail_cases fault; discriminate.
  - intros w port Hport w'. subst w'.
    split; [| split].
    + rewrite send_email_unfold, Hport, Hc.
      mail_cases fault; cbn [snd]; rewrite <- ?app_assoc; cbn [app];
        rewrite new_calls_app; eauto.
    + intros H1 H2 H3 H4.
      rewrite send_email_unfold, Hport, Hc, Hsender, Hh, Hu, Hp. simpl the.
      unfold set_header, set_content, with_SMTP, bind, invoke, ret.
      rewrite H1. cbn [store calls fst snd headers content app].
      rewrite H2. cbn [store calls fst snd headers content app].
      rewrite H3. cbn [store calls fst snd headers content app].
      rewrite H4. cbn [store calls fst snd headers content app].
      repeat match goal with
             | |- context [fault ?c] =>
                 destruct (fault c) eqn:?; cbn [store calls fst snd]
             end;
        rewrite <- ?app_assoc; cbn [app]; rewrite new_calls_app; simpl; tauto.
    + intros Hfault.
      rewrite (send_email_delivered environ fault int_other subject body to_email port w
                 Hport Hc).
      * rewrite Hsender, Hh, Hu, Hp. reflexivity.
      * apply Forall_forall. intros c _. apply Hfault.
Qed.

End SenderFallback.

Section FirstLead.

Variable environ : gmap string string.
Variable fault : call -> option exn.
Variable int_other : string -> exn + Z.
Variable object_id : N -> Identifier.
Variable validate_email : string -> option string.


End FirstLead.

(** ** The diagnostic endpoint: every outcome *)

(** Looks a literal key up through the assignments made to a
    dictionary. *)
Ltac lookup_through :=
  repeat first
    [ rewrite lookup_insert_eq
    | rewrite lookup_insert_ne by discriminate
    | rewrite lookup_singleton_eq
    | rewrite lookup_singleton_ne by discriminate ];
  try reflexivity.

(** The two outcomes of [test_database] without an error.  Without a
    handle the database is reported as available but not initialised
    and not connected, with no collections.  With a handle whose
    collections can be listed it is reported connected and working, and
    at most the first ten collection names are listed. *)
Theorem test_database_outcomes (environ : gmap string string) :
  (exists r,
     test_database environ None = inr r
     /\ r !! "database" = Some (VStr "⚠️ Available but not initialized")
     /\ r !! "connection_status" = Some (VStr "Not Connected")
     /\ r !! "collections" = Some (VList []))
  /\ (forall names, exists r,
        test_database environ (Some {| list_collection_names := inr names |}) = inr r
        /\ r !! "database" = Some (VStr "✅ Connected & Working")
        /\ r !! "connection_status" = Some (VStr "Connected")
        /\ r !! "collections" = Some (VList (VStr <$> take 10 names))
        /\ (length (take 10 names) <= 10)%nat).
Proof.
  split.
  - cbv [test_database try_except bind setitem lift].
    eexists. split; [reflexivity |]. repeat split; lookup_through.
  - intros names.
    cbv [test_database try_except bind setitem lift list_collection_names].
    eexists. split; [reflexivity |].
    split; [lookup_through |]. split; [lookup_through |].
    split; [lookup_through |].
    rewrite length_take. lia.
Qed.

(** In every outcome the diagnostic object has the same six keys, the
    backend is reported running, and the two configuration entries tell
    whether [DATABASE_URL] and [DATABASE_NAME] are set to a non-empty
    value; what happens to the database does not touch them. *)
Theorem test_database_fixed_entries (environ : gmap string string) (db : option Database) :
  exists r,
    test_database environ db = inr r
    /\ dom r = ({[ "backend"; "database"; "database_url"; "database_name";
                   "connection_status"; "collections" ]} : gset string)
    /\ r !! "backend" = Some (VStr "✅ Running")
    /\ r !! "database_url"
       = Some (VStr (if truthy (getenv environ "DATABASE_URL")
                     then "✅ Set" else "❌ Not Set"))
    /\ r !! "database_name"
       = Some (VStr (if truthy (getenv environ "DATABASE_NAME")
                     then "✅ Set" else "❌ Not Set")).
Proof.
  destruct db as [[[e | names]] |];
    cbv [test_database try_except bind setitem lift list_collection_names];
    eexists; (split; [reflexivity |]);
    (split; [rewrite ?dom_insert_L, ?dom_singleton_L; set_solver |]);
    repeat split; lookup_through.
Qed.

(** * The further properties on concrete requests *)

(** [GET /services?limit=2] against empty storage: the first two
    samples. *)
Lemma fallback_is_sample_prefix_witness :
  empty_storage (collection_of Services) ∅ (Some 2) empty_world = (inr [], empty_world)
  /\ exists out,
       GET_content empty_storage Services (Some 2) empty_world = (inr out, empty_world)
       /\ len out = 2.
Proof.
  split; [reflexivity |].
  destruct (fallback_is_sample_prefix empty_storage Services (Some 2)
              empty_world empty_world eq_refl) as (out & Hget & _ & Hlen).
  exists out. split; [exact Hget | exact Hlen].
Defined.

(** [GET /services?limit=-3] against empty storage: an empty list. *)
Lemma negative_limit_shortens_fallback_witness :
  empty_storage (collection_of Services) ∅ (Some (-3)) empty_world = (inr [], empty_world)
  /\ -3 < 0
  /\ GET_content empty_storage Services (Some (-3)) empty_world = (inr [], empty_world).
Proof.
  split; [reflexivity |]. split; [lia |].
  apply (proj2 (negative_limit_shortens_fallback empty_storage Services (-3)
                  empty_world empty_world eq_refl ltac:(lia))).
  unfold len. simpl. lia.
Defined.

(** Two stored records asked for with limit 1: both come back. *)
Lemma stripping_keeps_other_fields_witness :
  seeded_storage (collection_of Products) ∅ (Some 1) empty_world
  = (inr two_records, empty_world)
  /\ two_records <> []
  /\ exists out,
       GET_content seeded_storage Products (Some 1) empty_world = (inr out, empty_world)
       /\ length out = 2%nat.
Proof.
  split; [reflexivity |].
  assert (Hne : two_records <> []) by discriminate.
  split; [exact Hne |].
  destruct (stripping_keeps_other_fields seeded_storage Products (Some 1)
              empty_world empty_world two_records eq_refl Hne) as (out & Hget & Hlen & _).
  exists out. split; [exact Hget | exact Hlen].
Defined.

Lemma no_answer_exposes_id_witness :
  GET_content seeded_storage Posts None empty_world
  = (inr (pop_id <$> two_records), empty_world)
  /\ Forall (fun d : doc => d !! "_id" = None) (pop_id <$> two_records).
Proof.
  assert (Hget : GET_content seeded_storage Posts None empty_world
                 = (inr (pop_id <$> two_records), empty_world)) by reflexivity.
  split; [exact Hget |].
  exact (no_answer_exposes_id seeded_storage Posts None empty_world empty_world
           (pop_id <$> two_records) Hget).
Defined.

Lemma fallback_conforms_to_model_witness :
  empty_storage (collection_of Products) ∅ None empty_world = (inr [], empty_world)
  /\ exists out,
       GET_content empty_storage Products None empty_world = (inr out, empty_world)
       /\ Forall (fun d => conforms Products d = true) out.
Proof.
  split; [reflexivity |].
  exact (fallback_conforms_to_model empty_storage Products None empty_world empty_world
           eq_refl).
Defined.

(** A complete configuration with [EMAIL_FROM]: the message leaves with
    that address as sender, on port 587. *)
Lemma sender_prefers_EMAIL_FROM_witness :
  getenv smtp_from_env "EMAIL_FROM" = Some "shop@example.com"
  /\ smtp_from_env !! "SMTP_PORT" = None
  /\ send_email smtp_from_env no_fault refusing "New Lead" "text" "owner@example.com" empty_world
     = (inr true,
        {| store := store empty_world;
           calls := calls empty_world ++
             delivery "New Lead" "text" "owner@example.com" "shop@example.com"
               "mail.example.com" "lele" "secret" 587 |}).
Proof.
  assert (Hf : getenv smtp_from_env "EMAIL_FROM" = Some "shop@example.com")
    by (vm_compute; reflexivity).
  assert (Hport : smtp_from_env !! "SMTP_PORT" = None) by (vm_compute; reflexivity).
  split; [exact Hf |]. split; [exact Hport |].
  apply (sender_prefers_EMAIL_FROM smtp_from_env no_fault refusing "New Lead" "text"
           "owner@example.com" "mail.example.com" "lele" "secret" "shop@example.com"
           empty_world);
    first [discriminate | assumption | vm_compute; reflexivity | reflexivity].
Defined.

(** The body with the bad address: one error, on the email field. *)
Lemma validation_errors_name_fields_witness :
  Lead_validate at_sign_check bad_email = inl [InvalidEmail "email"]
  /\ [InvalidEmail "email"] <> []
  /\ Forall (fun e => In (error_field e) Lead_fields) [InvalidEmail "email"].
Proof.
  assert (Hv : Lead_validate at_sign_check bad_email = inl [InvalidEmail "email"])
    by (vm_compute; reflexivity).
  split; [exact Hv |].
  destruct (proj1 (validation_errors_name_fields at_sign_check bad_email
                     [InvalidEmail "email"]) Hv) as (Hne & Hall & _).
  split; [exact Hne | exact Hall].
Defined.

(** A tracking field added to the body of Amara changes nothing. *)
Lemma validation_ignores_other_fields_witness :
  ~ In "utm" Lead_fields
  /\ Lead_validate at_sign_check (<["utm" := VStr "spring"]> amara)
     = Lead_validate at_sign_check amara.
Proof.
  assert (Hk : ~ In "utm" Lead_fields) by (simpl; intuition discriminate).
  split; [exact Hk |].
  exact (proj1 (validation_ignores_other_fields at_sign_check amara "utm" (VStr "spring"))
           Hk).
Defined.

Lemma booking_requires_fields_witness :
  In "service" ["name"; "email"; "service"; "date"]
  /\ booking_without_service !! "service" = None
  /\ exists errs,
       Booking_validate at_sign_check booking_without_service = inl errs
       /\ In (Missing "service") errs.
Proof.
  assert (Hin : In "service" ["name"; "email"; "service"; "date"]) by (simpl; tauto).
  assert (Hnone : booking_without_service !! "service" = None)
    by (vm_compute; reflexivity).
  split; [exact Hin |]. split; [exact Hnone |].
  exact (booking_requires_fields at_sign_check booking_without_service "service" Hin Hnone).
Defined.

(** The lead of Amara with a blank [SMTP_PORT]: stored, and answered
    with 500. *)
Lemma stored_then_500_witness :
  Lead_validate at_sign_check amara = inr a_lead
  /\ create_document numbered_id "lead" (Lead_dict a_lead) empty_world
     = (inr "oid-0", stored_world)
  /\ POST_lead blank_port_env no_fault refusing numbered_id at_sign_check amara empty_world
     = ({| status := 500;
           body := Detail "invalid literal for int() with base 10: ''" |}, stored_world).
Proof.
  assert (Hv : Lead_validate at_sign_check amara = inr a_lead)
    by (vm_compute; reflexivity).
  assert (Hd : create_document numbered_id "lead" (Lead_dict a_lead) empty_world
               = (inr "oid-0", stored_world)) by (vm_compute; reflexivity).
  assert (Hs : send_email blank_port_env no_fault refusing "New Lead – Lele's Boutique"
                 (lead_mail_body a_lead)
                 (str_or (getenv blank_port_env "EMAIL_TO") EmptyString) stored_world
               = (inl (ValueError "invalid literal for int() with base 10: ''"),
                  stored_world)) by (vm_compute; reflexivity).
  split; [exact Hv |]. split; [exact Hd |].
  exact (proj1 (proj1 (stored_then_500 blank_port_env no_fault refusing numbered_id at_sign_check)
                  amara a_lead empty_world "oid-0" stored_world _ stored_world Hv Hd Hs)).
Defined.

(** The lead of Amara without any SMTP setting: 200, and no call. *)
Lemma unconfigured_mail_does_not_block_witness :
  int refusing (getenv_default no_env "SMTP_PORT" "587") = inr 587
  /\ truthy (getenv no_env "SMTP_HOST") = false
  /\ POST_lead no_env no_fault refusing numbered_id at_sign_check amara empty_world
     = ({| status := 200;
           body := JSON {[ "status" := VStr "ok"; "id" := VStr "oid-0" ]} |}, stored_world).
Proof.
  assert (Hport : int refusing (getenv_default no_env "SMTP_PORT" "587") = inr 587) by reflexivity.
  assert (Hh : truthy (getenv no_env "SMTP_HOST") = false) by reflexivity.
  split; [exact Hport |]. split; [exact Hh |].
  apply (proj1 (unconfigured_mail_does_not_block no_env no_fault refusing numbered_id at_sign_check
                  587 Hport (or_introl Hh)) amara a_lead empty_world "oid-0" stored_world);
    vm_compute; reflexivity.
Defined.

(** The lead of Amara with a complete configuration: 200, and the nine
    calls of one delivery to the owner. *)
Lemma persisted_then_notified_witness :
  getenv smtp_env "EMAIL_TO" = Some "owner@example.com"
  /\ (forall c, no_fault c = None)
  /\ POST_lead smtp_env no_fault refusing numbered_id at_sign_check amara empty_world
     = ({| status := 200;
           body := JSON {[ "status" := VStr "ok"; "id" := VStr "oid-0" ]} |},
        {| store := store stored_world;
           calls := calls stored_world ++
             delivery "New Lead – Lele's Boutique"
               "New website lead for Lele's Boutique

Name: Amara
Email: a@x.com
Phone: -

Message:
-
"
               "owner@example.com" "lele" "mail.example.com" "lele" "secret" 587 |}).
Proof.
  assert (Ht : getenv smtp_env "EMAIL_TO" = Some "owner@example.com")
    by (vm_compute; reflexivity).
  assert (Hf : forall c, no_fault c = None) by reflexivity.
  split; [exact Ht |]. split; [exact Hf |].
  apply (proj1 (persisted_then_notified smtp_env no_fault refusing numbered_id at_sign_check
                  "mail.example.com" "lele" "secret" "owner@example.com" 587
                  ltac:(vm_compute; reflexivity) ltac:(discriminate)
                  ltac:(vm_compute; reflexivity) ltac:(discriminate)
                  ltac:(vm_compute; reflexivity) ltac:(discriminate)
                  Ht ltac:(discriminate) ltac:(reflexivity) Hf)
           amara a_lead empty_world "oid-0" stored_world);
    vm_compute; reflexivity.
Defined.

Lemma validate_dict_round_trip_witness :
  at_sign_check (lead_email a_lead) = Some (lead_email a_lead)
  /\ Lead_validate at_sign_check (Lead_dict a_lead) = inr a_lead.
Proof.
  assert (He : at_sign_check (lead_email a_lead) = Some (lead_email a_lead))
    by reflexivity.
  split; [exact He |].
  exact (proj1 (validate_dict_round_trip at_sign_check) a_lead He).
Defined.

(** * The sender and the first lead on concrete requests *)



(** A complete SMTP configuration without [EMAIL_FROM] and without
    [SMTP_PORT]: the sender is the user, the connection goes to port
    587 and the message is sent with the user as sender. *)
Lemma sender_falls_back_to_user_witness :
  getenv smtp_env "SMTP_HOST" = Some "mail.example.com"
  /\ getenv smtp_env "SMTP_USER" = Some "lele"
  /\ getenv smtp_env "SMTP_PASS" = Some "secret"
  /\ truthy (getenv smtp_env "EMAIL_FROM") = false
  /\ int refusing (getenv_default smtp_env "SMTP_PORT" "587") = inr 587
  /\ opt_or (getenv smtp_env "EMAIL_FROM") (getenv smtp_env "SMTP_USER") = Some "lele"
  /\ fst (send_email smtp_env no_fault refusing "New Lead" "text" "owner@example.com"
            empty_world) <> inr false
  /\ send_email smtp_env no_fault refusing "New Lead" "text" "owner@example.com" empty_world
     = (inr true,
        {| store := store empty_world;
           calls := calls empty_world ++
             delivery "New Lead" "text" "owner@example.com" "lele"
               "mail.example.com" "lele" "secret" 587 |}).
Proof.
  assert (Hh : getenv smtp_env "SMTP_HOST" = Some "mail.example.com")
    by (vm_compute; reflexivity).
  assert (Hu : getenv smtp_env "SMTP_USER" = Some "lele") by (vm_compute; reflexivity).
  assert (Hp : getenv smtp_env "SMTP_PASS" = Some "secret") by (vm_compute; reflexivity).
  assert (Hf : truthy (getenv smtp_env "EMAIL_FROM") = false) by (vm_compute; reflexivity).
  assert (Hport : int refusing (getenv_default smtp_env "SMTP_PORT" "587") = inr 587)
    by (vm_compute; reflexivity).
  destruct (sender_falls_back_to_user smtp_env no_fault refusing "New Lead" "text"
              "owner@example.com" "mail.example.com" "lele" "secret"
              Hh ltac:(discriminate) Hu ltac:(discriminate) Hp ltac:(discriminate)
              ltac:(discriminate) Hf) as (Hs & Hnf & Hsend).
  destruct (Hsend empty_world 587 Hport) as (_ & _ & Hall).
  split; [exact Hh |]. split; [exact Hu |]. split; [exact Hp |].
  split; [exact Hf |]. split; [exact Hport |]. split; [exact Hs |].
  split; [apply Hnf | apply Hall; reflexivity].
Defined.

(** C10 as stated fails when the port is no number: host, user,
    password and recipient are all there and only [EMAIL_FROM] is
    missing, yet [send_email] raises on the port before anything is
    called, so no send is attempted. *)
Lemma bad_port_prevents_send :
  getenv bad_port_env "SMTP_HOST" = Some "mail.example.com"
  /\ getenv bad_port_env "SMTP_USER" = Some "lele"
  /\ getenv bad_port_env "SMTP_PASS" = Some "secret"
  /\ truthy (getenv bad_port_env "EMAIL_FROM") = false
  /\ send_email bad_port_env no_fault refusing "New Lead" "text" "owner@example.com"
       empty_world
     = (inl (ValueError "invalid literal for int() with base 10: 'abc'"), empty_world)
  /\ new_calls empty_world
       (snd (send_email bad_port_env no_fault refusing "New Lead" "text"
               "owner@example.com" empty_world)) = [].
Proof.
  repeat split; vm_compute; reflexivity.
Qed.
